(** * uTask: notification configuration, authorisation, task utilities and the
  statistics / metrics endpoints, embedded in Rocq.

  The Go sources are embedded shallowly: maps are [gmap]s, slices are
  lists, pointers that the code tests against [nil] are [option]s, fallible
  functions return their Go pair ([value], [error]) as a sum or as a pair
  with an [option error], and package-level variables are threaded as an
  explicit state. *)

From Stdlib Require Import String Ascii ZArith List Lia.
From stdpp Require Import gmap strings list fin_maps.

Local Open Scope string_scope.

(** ** Go preliminaries *)
Module Go.

(** Kinds of the errors built by [github.com/juju/errors], [errors] and
    [fmt.Errorf]; [KPlain] is an error without a juju kind. *)
Inductive ErrKind : Type :=
| KPlain | KNotValid | KBadRequest | KForbidden | KNotImplemented.

(** Arguments handed to a format string. Errors are kept unrendered: the
    format and its arguments are recorded as written in the source. *)
Inductive fmtarg : Type :=
| AStr (s : string)
| AStrs (l : list string)
| AStrMap (m : option (gmap string string)).

#[local] Set Warnings "-register-all".
Inductive error : Type :=
| MkError (kind : ErrKind) (format : string) (args : list fmtarg) (cause : option error).

Definition kind_of (e : error) : ErrKind :=
  match e with MkError k _ _ _ => k end.

(** [fmt.Errorf(format, args...)] *)
Definition fmt_Errorf (format : string) (args : list fmtarg) : error :=
  MkError KPlain format args None.
(** [errors.New(msg)] *)
Definition errors_New (msg : string) : error := MkError KPlain msg [] None.
(** [errors.Forbiddenf(format, args...)] *)
Definition errors_Forbiddenf (format : string) (args : list fmtarg) : error :=
  MkError KForbidden format args None.
(** [errors.BadRequestf(format, args...)] *)
Definition errors_BadRequestf (format : string) (args : list fmtarg) : error :=
  MkError KBadRequest format args None.
(** [errors.NewNotValid(cause, msg)] *)
Definition errors_NewNotValid (cause : option error) (msg : string) : error :=
  MkError KNotValid msg [] cause.

(** Go leaves the iteration order of [range] over a map unspecified.  A
    [MapRange] is one admissible choice of order: an enumeration of the
    entries of every map with string keys.  Everything below that ranges
    over a map is parameterised by such a choice. *)
Record MapRange : Type := {
  range : ∀ V : Type, gmap string V → list (string * V);
  range_perm : ∀ (V : Type) (m : gmap string V), range V m ≡ₚ map_to_list m
}.
Arguments range _ {V} _.

(** The order in which stdpp enumerates a map is one such choice. *)
Definition canonicalRange : MapRange :=
  {| range := fun V m => map_to_list m;
     range_perm := fun V m => reflexivity (map_to_list m) |}.

End Go.
Import Go.

(** ** Package [utask]: configuration types and constants *)
Module Utask.

(** Modelled from the spec: the strategy constants of package [utask]
    ([NotificationStrategyAlways] and its siblings) are not among the
    sources; the spec lists the valid strategies as [always], [silent],
    [failure_only], [failure_or_done]. *)
Definition NotificationStrategyAlways : string := "always".
Definition NotificationStrategySilent : string := "silent".
Definition NotificationStrategyFailureOnly : string := "failure_only".
Definition NotificationStrategyFailureOrDone : string := "failure_or_done".

Record TemplateNotificationStrategy : Type := {
  Templates : list string;
  NotificationStrategy : string
}.

(** [utask.NotifyBackend].  [DefaultNotificationStrategy] is an [option]
    because the code distinguishes the [nil] map; a [nil]
    [TemplateNotificationStrategies] is only ever ranged over, which
    behaves as the empty map.  [Config] is the raw JSON of the transport
    settings. *)
Record NotifyBackend : Type := {
  Type_ : string;
  DefaultNotificationStrategy : option (gmap string string);
  TemplateNotificationStrategies : gmap string (list TemplateNotificationStrategy);
  Config : string
}.

(** [utask.NotifyActionsParameters] *)
Record NotifyActionsParameters : Type := {
  Disabled : bool;
  NotifyBackends : list string
}.

(** The part of [utask.Cfg] read by the code below; [NA] is the type of
    the [NotifyActions] block, which is only stored. *)
Record Cfg (NA : Type) : Type := {
  NotifyConfig : gmap string NotifyBackend;
  NotifyActions : NA;
  AdminUsernames : list string;
  AdminGroups : list string
}.
Arguments NotifyConfig {NA} _.
Arguments NotifyActions {NA} _.
Arguments AdminUsernames {NA} _.
Arguments AdminGroups {NA} _.

End Utask.
Import Utask.

(** ** Package [notify] (pkg/notify/notify.go) *)
Module Notify.

Definition TaskStateUpdateKey : string := "task_state_update".
Definition TaskStepUpdateKey : string := "task_step_update".
Definition TaskValidationKey : string := "task_validation".

Section Registry.
(** [Sender] stands for a value of the interface [NotificationSender],
    [Message] for the struct [Message]; [NA] is [utask.NotifyActions]. *)
Variables Sender Message NA : Type.

Record notificationBackend : Type := {
  sender : Sender;
  defaultNotificationStrategy : option (gmap string string);
  templateNotificationStrategies : gmap string (list TemplateNotificationStrategy)
}.

(** The package-level variables [senders] and [actions]. *)
Record registry : Type := {
  senders : gmap string notificationBackend;
  actions : option NA
}.

Definition empty_registry : registry :=
  {| senders := ∅; actions := None |}.

Definition RegisterSender (name : string) (s : Sender)
    (dns : option (gmap string string))
    (tns : gmap string (list TemplateNotificationStrategy))
    (g : registry) : registry :=
  {| senders := <[name := {| sender := s;
                             defaultNotificationStrategy := dns;
                             templateNotificationStrategies := tns |}]> (senders g);
     actions := actions g |}.

Fixpoint names_of (l : list (string * notificationBackend)) (names : list string)
    : list string :=
  match l with
  | [] => names
  | (name, _) :: l' => names_of l' (names ++ [name])
  end.

Definition ListSendersNames (R : MapRange) (g : registry) : list string :=
  names_of (range R (senders g)) [].

Definition RegisterActions (na : NA) (g : registry) : registry :=
  {| senders := senders g; actions := Some na |}.

Definition ListActions (g : registry) : option NA := actions g.

(** [checkIfDeliverMessage] lives in another file of the package, which is
    not among the sources: it is a parameter of [Send]. *)
Variable checkIfDeliverMessage : Message → notificationBackend → bool.

(** One launched goroutine [go s.sender.Send(m, name)]. *)
Record launch : Type := {
  launch_sender : Sender;
  launch_message : Message;
  launch_name : string
}.

(** [for name, s := range senders { if check { go send } }] *)
Fixpoint send_all (m : Message) (l : list (string * notificationBackend))
    : list launch :=
  match l with
  | [] => []
  | (name, s) :: l' =>
      if checkIfDeliverMessage m s
      then {| launch_sender := sender s; launch_message := m; launch_name := name |}
             :: send_all m l'
      else send_all m l'
  end.

(** [for nsname, ns := range senders { switch n { case nsname: ... } }] *)
Fixpoint send_named (m : Message) (n : string) (l : list (string * notificationBackend))
    : list launch :=
  match l with
  | [] => []
  | (nsname, ns) :: l' =>
      if String.eqb n nsname
      then if checkIfDeliverMessage m ns
           then {| launch_sender := sender ns; launch_message := m; launch_name := nsname |}
                  :: send_named m n l'
           else send_named m n l'
      else send_named m n l'
  end.

(** [for _, n := range params.NotifyBackends { ... }] *)
Fixpoint send_backends (R : MapRange) (m : Message) (g : registry) (ns : list string)
    : list launch :=
  match ns with
  | [] => []
  | n :: ns' => send_named m n (range R (senders g)) ++ send_backends R m g ns'
  end.

(** [Send]: the result is the list of goroutines it launches. *)
Definition Send (R : MapRange) (g : registry) (m : Message)
    (params : NotifyActionsParameters) : list launch :=
  if Disabled params then []
  else if (length (NotifyBackends params) =? 0)%nat
       then send_all m (range R (senders g))
       else send_backends R m g (NotifyBackends params).

End Registry.

Arguments sender {Sender} _.
Arguments defaultNotificationStrategy {Sender} _.
Arguments templateNotificationStrategies {Sender} _.
Arguments senders {Sender NA} _.
Arguments actions {Sender NA} _.
Arguments launch_sender {Sender Message} _.
Arguments launch_message {Sender Message} _.
Arguments launch_name {Sender Message} _.
Arguments RegisterSender {Sender NA} _ _ _ _ _.
Arguments RegisterActions {Sender NA} _ _.
Arguments Send {Sender Message NA} _ _ _ _ _.
Arguments send_all {Sender Message} _ _ _.
Arguments send_named {Sender Message} _ _ _ _.
Arguments send_backends {Sender Message NA} _ _ _ _ _.

End Notify.

(** ** Package [init] of pkg/notify (pkg/notify/init/init.go) *)
Module NotifyInit.
Import Notify.

(** Modelled from the spec: the [Type] constants of the packages [opsgenie],
    [slack] and [webhook] are not among the sources; the spec names the
    backend types [slack], [opsgenie] and [webhook]. *)
Definition opsgenie_Type : string := "opsgenie".
Definition slack_Type : string := "slack".
Definition webhook_Type : string := "webhook".

(** The two sentinel errors [errNotAllowed] and [errUnknown]. *)
Inductive strategyError : Type := errNotAllowed | errUnknown.

Definition validateStrategyForAction (action strategy : string) : option strategyError :=
  if String.eqb strategy NotificationStrategyAlways
     || String.eqb strategy NotificationStrategySilent then None
  else if String.eqb strategy NotificationStrategyFailureOnly then
    if String.eqb action TaskValidationKey then Some errNotAllowed else None
  else if String.eqb strategy NotificationStrategyFailureOrDone then
    if String.eqb action TaskValidationKey then Some errNotAllowed else None
  else Some errUnknown.

Definition validateActionName (action : string) : bool :=
  String.eqb action TaskValidationKey
  || String.eqb action TaskStateUpdateKey
  || String.eqb action TaskStepUpdateKey.

(** [for action := range ncfg.DefaultNotificationStrategy { ... }] *)
Fixpoint check_default_actions (l : list (string * string)) : option error :=
  match l with
  | [] => None
  | (action, _) :: l' =>
      if negb (validateActionName action)
      then Some (fmt_Errorf
             "invalid action in default_notification_strategy: %q is not allowed value"
             [AStr action])
      else check_default_actions l'
  end.

(** [for _, strat := range strats { switch validateStrategyForAction ... }] *)
Fixpoint check_strats (action : string) (strats : list TemplateNotificationStrategy)
    : option error :=
  match strats with
  | [] => None
  | strat :: strats' =>
      match validateStrategyForAction action (NotificationStrategy strat) with
      | Some errNotAllowed =>
          Some (fmt_Errorf
            "invalid notification_strategy for templates %#v and action %q: %q is not allowed for this action"
            [AStrs (Templates strat); AStr action; AStr (NotificationStrategy strat)])
      | Some errUnknown =>
          Some (fmt_Errorf
            "invalid notification_strategy for templates %#v: %q is not a valid value"
            [AStrs (Templates strat); AStr (NotificationStrategy strat)])
      | None => check_strats action strats'
      end
  end.

(** [for action, strats := range ncfg.TemplateNotificationStrategies { ... }] *)
Fixpoint check_template_strategies
    (l : list (string * list TemplateNotificationStrategy)) : option error :=
  match l with
  | [] => None
  | (action, strats) :: l' =>
      if negb (validateActionName action)
      then Some (fmt_Errorf
             "invalid action name %q found in notification_strategy: %q is not a valid value"
             [AStr action; AStr action])
      else match check_strats action strats with
           | Some e => Some e
           | None => check_template_strategies l'
           end
  end.

Definition with_default (ncfg : NotifyBackend) (d : gmap string string) : NotifyBackend :=
  {| Type_ := Type_ ncfg;
     DefaultNotificationStrategy := Some d;
     TemplateNotificationStrategies := TemplateNotificationStrategies ncfg;
     Config := Config ncfg |}.

(** The map read by the code: reading or ranging over a [nil] map behaves as
    on the empty map. *)
Definition default_map (ncfg : NotifyBackend) : gmap string string :=
  match DefaultNotificationStrategy ncfg with
  | Some d => d
  | None => ∅
  end.

(** [for _, action := range []string{...} { ... }]: the body of the second
    loop of [validateAndNormalizeNotificationStrategy]. *)
Fixpoint normalize_actions (R : MapRange) (acts : list string) (ncfg : NotifyBackend)
    : NotifyBackend * option error :=
  match acts with
  | [] => (ncfg, None)
  | action :: acts' =>
      let ncfg1 :=
        match DefaultNotificationStrategy ncfg with
        | None => with_default ncfg ∅
        | Some _ => ncfg
        end in
      let '(ncfg2, defaultStrategy) :=
        match default_map ncfg1 !! action with
        | Some s => (ncfg1, s)
        | None =>
            (with_default ncfg1 (<[action := NotificationStrategyAlways]> (default_map ncfg1)),
             NotificationStrategyAlways)
        end in
      match validateStrategyForAction action defaultStrategy with
      | Some errNotAllowed =>
          (ncfg2, Some (fmt_Errorf
             "invalid default_notification_strategy for action %q: %q is not allowed for this action"
             [AStr action; AStr defaultStrategy]))
      | Some errUnknown =>
          (ncfg2, Some (fmt_Errorf
             "invalid default_notification_strategy: %q is not a valid value"
             [AStrMap (DefaultNotificationStrategy ncfg2)]))
      | None =>
          match check_template_strategies (range R (TemplateNotificationStrategies ncfg2)) with
          | Some e => (ncfg2, Some e)
          | None => normalize_actions R acts' ncfg2
          end
      end
  end.

Definition validateAndNormalizeNotificationStrategy (R : MapRange) (ncfg : NotifyBackend)
    : NotifyBackend * option error :=
  match check_default_actions (range R (default_map ncfg)) with
  | Some e => (ncfg, Some e)
  | None =>
      normalize_actions R [TaskValidationKey; TaskStateUpdateKey; TaskStepUpdateKey] ncfg
  end.

Section Init.
(** [Sender] is a value of the interface [notify.NotificationSender]; [NA] is
    [utask.NotifyActions]; [Store] is [*configstore.Store]. *)
Variables Sender NA Store : Type.

(** [utask.Config(store)] *)
Variable utask_Config : Store → error + Cfg NA.

(** The three cases of the [switch ncfg.Type] decode the JSON held in
    [ncfg.Config], look credentials up in the store and build a sender with
    the constructors of the transport packages, none of which is among the
    sources.  Each case is a parameter: it yields the sender handed to
    [notify.RegisterSender], or the error the case returns. *)
Variable opsgenie_case : Store → string → NotifyBackend → error + Sender.
Variable slack_case : Store → string → NotifyBackend → error + Sender.
Variable webhook_case : Store → string → NotifyBackend → error + Sender.

(** [for name, ncfg := range cfg.NotifyConfig { ... }] *)
Fixpoint init_backends (R : MapRange) (store : Store) (l : list (string * NotifyBackend))
    (g : registry Sender NA) : registry Sender NA * option error :=
  match l with
  | [] => (g, None)
  | (name, ncfg) :: l' =>
      match validateAndNormalizeNotificationStrategy R ncfg with
      | (_, Some err) => (g, Some err)
      | (newncfg, None) =>
          (* save normalisation modifications *)
          let ncfg' := {| Type_ := Type_ ncfg;
                          DefaultNotificationStrategy := DefaultNotificationStrategy newncfg;
                          TemplateNotificationStrategies := TemplateNotificationStrategies ncfg;
                          Config := Config ncfg |} in
          let register (r : error + Sender) :=
            match r with
            | inl err => (g, Some err)
            | inr s =>
                init_backends R store l'
                  (RegisterSender name s (DefaultNotificationStrategy ncfg')
                     (TemplateNotificationStrategies ncfg') g)
            end in
          if String.eqb (Type_ ncfg') opsgenie_Type then register (opsgenie_case store name ncfg')
          else if String.eqb (Type_ ncfg') slack_Type then register (slack_case store name ncfg')
          else if String.eqb (Type_ ncfg') webhook_Type then register (webhook_case store name ncfg')
          else (g, Some (fmt_Errorf "failed to identify backend type: %s" [AStr (Type_ ncfg')]))
      end
  end.

(** [Init]: the registry of package [notify] before the call, the registry
    after it and the error returned. *)
Definition Init (R : MapRange) (store : Store) (g : registry Sender NA)
    : registry Sender NA * option error :=
  match utask_Config store with
  | inl err => (g, Some err)
  | inr cfg =>
      match init_backends R store (range R (NotifyConfig cfg)) g with
      | (g', Some err) => (g', Some err)
      | (g', None) => (RegisterActions (NotifyActions cfg) g', None)
      end
  end.

End Init.

End NotifyInit.

(** ** The model structs read by the code (packages [task], [tasktemplate],
    [resolution]) *)
Module Models.

(** Modelled from the spec: the state constants of the packages [task] and
    [resolution] are not among the sources; the spec gives the task states
    TODO, BLOCKED, RUNNING, WAITING, DONE, CANCELLED, WONTFIX and, among the
    resolution states, CRASHED and PAUSED. *)
Definition task_StateDone : string := "DONE".
Definition task_StateWontfix : string := "WONTFIX".
Definition task_StateCancelled : string := "CANCELLED".
Definition task_StateBlocked : string := "BLOCKED".
Definition task_StateRunning : string := "RUNNING".
Definition task_StateWaiting : string := "WAITING".
Definition resolution_StateCrashed : string := "CRASHED".
Definition resolution_StatePaused : string := "PAUSED".

(** [task.Comment], opaque to the code below. *)
Record Comment : Type := { CommentContent : string; CommentUsername : string }.

(** The fields of [task.Task] that the code reads or writes.  [Tags] is a
    map tested against [nil]; [BatchID] and [Resolution] are pointers. *)
Record Task : Type := {
  TaskPublicID : string;
  TaskState : string;
  RequesterUsername : string;
  WatcherUsernames : list string;
  WatcherGroups : list string;
  ResolverUsernames : list string;
  ResolverGroups : list string;
  Tags : option (gmap string string);
  BatchID : option Z;
  Resolution : option string;
  Comments : list Comment
}.

Definition set_Comments (t : Task) (cs : list Comment) : Task :=
  {| TaskPublicID := TaskPublicID t; TaskState := TaskState t;
     RequesterUsername := RequesterUsername t;
     WatcherUsernames := WatcherUsernames t; WatcherGroups := WatcherGroups t;
     ResolverUsernames := ResolverUsernames t; ResolverGroups := ResolverGroups t;
     Tags := Tags t; BatchID := BatchID t; Resolution := Resolution t;
     Comments := cs |}.

Definition set_Resolution (t : Task) (r : option string) : Task :=
  {| TaskPublicID := TaskPublicID t; TaskState := TaskState t;
     RequesterUsername := RequesterUsername t;
     WatcherUsernames := WatcherUsernames t; WatcherGroups := WatcherGroups t;
     ResolverUsernames := ResolverUsernames t; ResolverGroups := ResolverGroups t;
     Tags := Tags t; BatchID := BatchID t; Resolution := r;
     Comments := Comments t |}.

(** The fields of [tasktemplate.TaskTemplate] that the code reads. *)
Record TaskTemplate : Type := {
  TemplateName : string;
  AllowedResolverUsernames : list string;
  AllowedResolverGroups : list string;
  AllowAllResolverUsernames : bool;
  AutoRunnable : bool;
  Blocked : bool
}.

(** The fields of [resolution.Resolution] that the code reads. *)
Record Resolution_ : Type := {
  ResolutionPublicID : string;
  ResolutionState : string;
  ResolverUsername : string
}.

End Models.
Import Models.

(** ** Package [utils]: the two helpers used by package [auth] *)
Module Utils.

(** Modelled from the spec: pkg/utils is not among the sources.
    [ListContainsString list item] tells whether [item] occurs in [list]. *)
Fixpoint ListContainsString (l : list string) (item : string) : bool :=
  match l with
  | [] => false
  | i :: l' => if String.eqb i item then true else ListContainsString l' item
  end.

(** Modelled from the spec: pkg/utils is not among the sources.
    [HasIntersection a b] tells whether the two slices share an element. *)
Fixpoint HasIntersection (a b : list string) : bool :=
  match a with
  | [] => false
  | x :: a' => if ListContainsString b x then true else HasIntersection a' b
  end.

End Utils.
Import Utils.

(** ** Package [auth] (second part of pkg/notify/init/init.go) *)
Module Auth.

(** What the code reads from a [context.Context]: the values stored under
    [IdentityProviderCtxKey] and [GroupProviderCtxKey], absent ([nil]) when
    never stored. *)
Record Context : Type := {
  ctx_identity : option string;
  ctx_groups : option (list string)
}.

Definition Background : Context := {| ctx_identity := None; ctx_groups := None |}.

Definition WithIdentity (ctx : Context) (id : string) : Context :=
  {| ctx_identity := Some id; ctx_groups := ctx_groups ctx |}.

Definition WithGroups (ctx : Context) (groups : list string) : Context :=
  {| ctx_identity := ctx_identity ctx; ctx_groups := Some groups |}.

(** The package-level variables [adminUsers] and [adminGroups]. *)
Record admins : Type := {
  adminUsers : list string;
  adminGroups : list string
}.

Section AuthInit.
Variables NA Store : Type.
Variable utask_Config : Store → error + Cfg NA.

Definition Init (store : Store) (a : admins) : admins * option error :=
  match utask_Config store with
  | inl err => (a, Some err)
  | inr cfg =>
      if ((length (AdminUsernames cfg) <? 1) && (length (AdminGroups cfg) <? 1))%nat
      then (a, Some (errors_New "Admin user list can't be empty"))
      else ({| adminUsers := AdminUsernames cfg; adminGroups := AdminGroups cfg |}, None)
  end.
End AuthInit.

Definition GetIdentity (ctx : Context) : string :=
  match ctx_identity ctx with
  | Some id => id
  | None => EmptyString
  end.

Definition GetGroups (ctx : Context) : list string :=
  match ctx_groups ctx with
  | Some groups => groups
  | None => []
  end.

Definition IsAdmin (a : admins) (ctx : Context) : option error :=
  let id := GetIdentity ctx in
  if ListContainsString (adminUsers a) id then None
  else
    let groups := GetGroups ctx in
    if HasIntersection (adminGroups a) groups then None
    else Some (errors_Forbiddenf "Not an admin user" []).

Definition IsRequester (ctx : Context) (t : Task) : option error :=
  let id := GetIdentity ctx in
  if negb (String.eqb (RequesterUsername t) id)
  then Some (errors_Forbiddenf "User is not requester of this task" [])
  else None.

Definition IsWatcher (ctx : Context) (t : Task) : option error :=
  let id := GetIdentity ctx in
  if ListContainsString (WatcherUsernames t) id then None
  else
    let groups := GetGroups ctx in
    if HasIntersection (WatcherGroups t) groups then None
    else Some (errors_Forbiddenf "User is not watcher of this task" []).

Definition IsTemplateOwner (ctx : Context) (tt : option TaskTemplate) : option error :=
  let id := GetIdentity ctx in
  match tt with
  | None => Some (errors_New "nil tasktemplate")
  | Some tt0 =>
      if ListContainsString (AllowedResolverUsernames tt0) id then None
      else
        let groups := GetGroups ctx in
        if HasIntersection (AllowedResolverGroups tt0) groups then None
        else Some (errors_Forbiddenf "User not authorized on this resolution" [])
  end.

Definition IsResolutionManager (ctx : Context) (tt : option TaskTemplate)
    (t : option Task) (r : option Resolution_) : option error :=
  let id := GetIdentity ctx in
  match t with
  | None => Some (errors_New "nil task")
  | Some t =>
      match IsTemplateOwner ctx tt with
      | None => None
      | Some _ =>
          if ListContainsString (ResolverUsernames t) id then None
          else if match r with
                  | Some r => String.eqb (ResolverUsername r) id
                  | None => false
                  end then None
          else
            let groups := GetGroups ctx in
            if HasIntersection (ResolverGroups t) groups then None
            else Some (errors_Forbiddenf "User not authorized on this resolution" [])
      end
  end.

End Auth.

(** ** Package [taskutils] (pkg/taskutils/taskutils.go) *)
Module TaskUtils.
Import Auth.

Section CreateTask.
(** [W] is everything [CreateTask] can change or observe outside its
    arguments: the database behind the [zesty.DBProvider], the notifications
    sent and the clock.  [Input] is the task input map, [Batch] is
    [task.Batch], [Duration] and [Time] are those of package [time]. *)
Variables W Input Batch Duration Time : Type.

(** The functions of the packages [task], [tasktemplate], [resolution] and
    [time] called by [CreateTask]; they are not among the sources and are
    parameters.  Those that write to the database return the new world. *)
Variable task_Create :
  W → TaskTemplate → string → list string → list string → list string →
  list string → list string → Input → option (gmap string string) →
  option Batch → bool → W * (error + Task).
Variable task_CreateComment : W → Task → string → string → W * (error + Comment).
Variable NotifyValidationRequired : W → Task → TaskTemplate → W.
Variable IsAutoRunnable : TaskTemplate → bool.
Variable time_ParseDuration : string → error + Duration.
Variable time_Now_Add : W → Duration → Time.
Variable resolution_Create :
  W → Task → string → bool → option Time → W * (error + option Resolution_).

(** The tail of [CreateTask], from the comment "task is AutoRunnable,
    creating resolution" on. *)
Definition create_resolution (a : admins) (c : Context) (w : W) (tt : TaskTemplate)
    (t : Task) (reqUsername : string) (delay : option string) : W * (error + Task) :=
  let admin := match IsAdmin a c with None => true | Some _ => false end in
  let requester :=
    match IsRequester c t with None => true | Some _ => false end
    && AllowAllResolverUsernames tt in
  let resolutionManager :=
    match IsResolutionManager c (Some tt) (Some t) None with
    | None => true | Some _ => false end in
  if negb requester && negb resolutionManager && negb admin
  then (NotifyValidationRequired w t tt, inr t)
  else
    let delayUntil : error + option Time :=
      match delay with
      | None => inr None
      | Some d =>
          match time_ParseDuration d with
          | inl err => inl (errors_NewNotValid (Some err) "delay")
          | inr delayDuration => inr (Some (time_Now_Add w delayDuration))
          end
      end in
    match delayUntil with
    | inl err => (w, inl err)
    | inr delayUntil =>
        match resolution_Create w t reqUsername true delayUntil with
        | (w', inl err) => (w', inl err)
        | (w', inr None) => (w', inr t)
        | (w', inr (Some resolution)) =>
            (w', inr (set_Resolution t (Some (ResolutionPublicID resolution))))
        end
    end.

(** [CreateTask]; [tt] is a non-nil template. *)
Definition CreateTask (a : admins) (c : Context) (w : W) (tt : TaskTemplate)
    (watcherUsernames watcherGroups resolverUsernames resolverGroups : list string)
    (input : Input) (b : option Batch) (comment : string) (delay : option string)
    (tags : option (gmap string string)) : W * (error + Task) :=
  let reqUsername := GetIdentity c in
  let reqGroups := GetGroups c in
  if Blocked tt
  then (w, inl (errors_NewNotValid None "Template not available (blocked)"))
  else
    let delayed := match delay with Some _ => true | None => false end in
    match task_Create w tt reqUsername reqGroups watcherUsernames watcherGroups
            resolverUsernames resolverGroups input tags b delayed with
    | (w1, inl err) => (w1, inl err)
    | (w1, inr t) =>
        let after_comment : W * (error + Task) :=
          if negb (String.eqb comment EmptyString)
          then match task_CreateComment w1 t reqUsername comment with
               | (w2, inl err) => (w2, inl err)
               | (w2, inr com) => (w2, inr (set_Comments t [com]))
               end
          else (w1, inr t) in
        match after_comment with
        | (w2, inl err) => (w2, inl err)
        | (w2, inr t) =>
            if negb (IsAutoRunnable tt) && AllowAllResolverUsernames tt
            then (w2, inl (MkError KPlain "invalid tasktemplate: %q should be auto_runnable"
                             [AStr (TemplateName tt)] None))
            else if negb (IsAutoRunnable tt)
            then (NotifyValidationRequired w2 t tt, inr t)
            else create_resolution a c w2 tt t reqUsername delay
        end
    end.

End CreateTask.

Section ShouldResumeParentTask.
(** [DB] is the database behind the [zesty.DBProvider]; the three queries
    and the tag name of package [constants] are not among the sources and
    are parameters. *)
Variable DB : Type.
Variable SubtaskTagParentTaskID : string.
Variable batchutils_RunningTasks : DB → Z → error + Z.
Variable task_LoadFromPublicID : DB → string → error + Task.
Variable resolution_LoadFromPublicID : DB → string → error + Resolution_.

Definition finished_state (s : string) : bool :=
  String.eqb s task_StateDone || String.eqb s task_StateWontfix
  || String.eqb s task_StateCancelled.

Definition resumable_parent_state (s : string) : bool :=
  String.eqb s task_StateBlocked || String.eqb s task_StateRunning
  || String.eqb s task_StateWaiting.

(** The part of [ShouldResumeParentTask] after the batch test. *)
Definition load_parent (dbp : DB) (parentTaskID : string) : option Task * option error :=
  match task_LoadFromPublicID dbp parentTaskID with
  | inl err => (None, Some err)
  | inr parentTask =>
      if negb (resumable_parent_state (TaskState parentTask)) then (None, None)
      else
        match Resolution parentTask with
        | None => (None, None)
        | Some rid =>
            match resolution_LoadFromPublicID dbp rid with
            | inl err => (None, Some err)
            | inr r =>
                if String.eqb (ResolutionState r) resolution_StateCrashed
                   || String.eqb (ResolutionState r) resolution_StatePaused
                then (None, None)
                else (Some parentTask, None)
            end
        end
  end.

Definition ShouldResumeParentTask (dbp : DB) (t : Task) : option Task * option error :=
  if negb (finished_state (TaskState t)) then (None, None)
  else
    match Tags t with
    | None => (None, None)
    | Some tags =>
        match tags !! SubtaskTagParentTaskID with
        | None => (None, None)
        | Some parentTaskID =>
            match BatchID t with
            | Some batchID =>
                match batchutils_RunningTasks dbp batchID with
                | inl err => (None, Some err)
                | inr running =>
                    if negb (running =? 0)%Z then (None, None)
                    else load_parent dbp parentTaskID
                end
            | None => load_parent dbp parentTaskID
            end
        end
    end.

End ShouldResumeParentTask.

End TaskUtils.

(** ** Package [strings]: [Split] *)
Module Strings.

Fixpoint HasPrefix (s pre : string) : bool :=
  match pre, s with
  | EmptyString, _ => true
  | String a pre', String b s' => if Ascii.eqb a b then HasPrefix s' pre' else false
  | String _ _, EmptyString => false
  end.

(** [split_from sep skip s]: the pieces of [s] between the occurrences of
    [sep], read from the left without overlap; [skip] counts the bytes of an
    occurrence of [sep] still to be passed over. *)
Fixpoint split_from (sep : string) (skip : nat) (s : string) : list string :=
  match s with
  | EmptyString => [EmptyString]
  | String c s' =>
      match skip with
      | S k => split_from sep k s'
      | O =>
          if HasPrefix s sep
          then EmptyString :: split_from sep (String.length sep - 1) s'
          else match split_from sep 0 s' with
               | p :: ps => String c p :: ps
               | [] => [String c EmptyString]
               end
      end
  end.

(** [strings.Split(s, sep)] for a separator that is not empty, the only use
    made of it by the code. *)
Definition Split (s sep : string) : list string := split_from sep 0 s.

End Strings.

(** ** Package [api] (api/metrics.go and the server file that follows it) *)
Module Api.
Import Auth.

(** *** The gauge *)


(** [time.Second] in nanoseconds, the unit of [time.Duration]. *)
Definition time_Second : Z := 1000000000.

Section Metrics.
(** [float64] values are only copied from the query result to the gauge;
    [DB] is the database behind the [zesty.DBProvider]. *)
Variables float64 DB : Type.

(** The result type of [task.LoadStateCountResolverGroup]:
    group, then template, then state. *)
Definition stateCounts : Type := gmap string (gmap string (gmap string float64)).

Variable task_LoadStateCountResolverGroup : DB → stateCounts * option error.

(** The gauge vector [metrics], by label values in the order of
    [metrics_labelNames], and what [logrus.Warn] was given. *)
Record exporter : Type := {
  gauges : gmap (list string) float64;
  warnings : list error
}.

(** [metrics.WithLabelValues(lvs...).Set(v)] *)
Definition WithLabelValues_Set (lvs : list string) (v : float64) (x : exporter) : exporter :=
  {| gauges := <[lvs := v]> (gauges x); warnings := warnings x |}.

Definition logrus_Warn (err : error) (x : exporter) : exporter :=
  {| gauges := gauges x; warnings := warnings x ++ [err] |}.

Fixpoint update_states (group template : string) (l : list (string * float64))
    (x : exporter) : exporter :=
  match l with
  | [] => x
  | (state, count) :: l' =>
      update_states group template l' (WithLabelValues_Set [state; template; group] count x)
  end.

Fixpoint update_templates (R : MapRange) (group : string)
    (l : list (string * gmap string float64)) (x : exporter) : exporter :=
  match l with
  | [] => x
  | (template, templateStats) :: l' =>
      update_templates R group l' (update_states group template (range R templateStats) x)
  end.

Fixpoint update_groups (R : MapRange)
    (l : list (string * gmap string (gmap string float64))) (x : exporter) : exporter :=
  match l with
  | [] => x
  | (group, groupStats) :: l' =>
      update_groups R l' (update_templates R group (range R groupStats) x)
  end.

Definition updateMetrics (R : MapRange) (dbp : DB) (x : exporter) : exporter :=
  let '(stats, err) := task_LoadStateCountResolverGroup dbp in
  let x1 := match err with Some e => logrus_Warn e x | None => x end in
  update_groups R (range R stats) x1.

(** The goroutine started by [collectMetrics] waits on two channels.  An
    [event] is what it receives: a tick of the ticker, with the database as
    it is at that moment, or the cancellation of the context. *)
Inductive event : Type :=
| TickC (dbp : DB)
| CtxDone.

(** [ticker] is the period of the running ticker, [None] when there is none
    or it was stopped; [looping] tells whether the goroutine is alive. *)
Record collector : Type := {
  ticker : option Z;
  looping : bool;
  exported : exporter
}.

(** [collectMetrics]: the argument is the result of
    [zesty.NewDBProvider(utask.DBName)]. *)
Definition collectMetrics (R : MapRange) (provider : error + DB) (x : exporter) : collector :=
  match provider with
  | inl err => {| ticker := None; looping := false; exported := logrus_Warn err x |}
  | inr dbp =>
      {| ticker := Some (5 * time_Second)%Z; looping := true;
         exported := updateMetrics R dbp x |}
  end.

(** One turn of the [select] of the goroutine. *)
Definition collector_step (R : MapRange) (c : collector) (e : event) : collector :=
  if looping c then
    match e with
    | TickC dbp =>
        {| ticker := ticker c; looping := true;
           exported := updateMetrics R dbp (exported c) |}
    | CtxDone => {| ticker := None; looping := false; exported := exported c |}
    end
  else c.

Definition collector_run (R : MapRange) (c : collector) (es : list event) : collector :=
  fold_left (collector_step R) es c.

End Metrics.

Arguments gauges {float64} _.
Arguments warnings {float64} _.
Arguments ticker {float64} _.
Arguments looping {float64} _.
Arguments exported {float64} _.
Arguments TickC {DB} _.
Arguments CtxDone {DB}.

(** *** The statistics endpoint *)
Section Stats.
(** [TaskStates] is the map returned by [task.LoadStateCount], which is not
    among the sources and is a parameter. *)
Variables TaskStates DB : Type.
Variable task_LoadStateCount : DB → gmap string string → error + TaskStates.

Record StatsIn : Type := { StatsIn_Tags : list string }.
Record StatsOut : Type := { StatsOut_TaskStates : TaskStates }.

(** [for _, t := range in.Tags { ... }] *)
Fixpoint parse_tags (l : list string) (tags : gmap string string)
    : error + gmap string string :=
  match l with
  | [] => inr tags
  | t :: l' =>
      let parts := Strings.Split t "=" in
      if negb (length parts =? 2)%nat
      then inl (errors_BadRequestf "invalid tag %s" [AStr t])
      else if String.eqb (nth 0 parts EmptyString) EmptyString || String.eqb (nth 1 parts EmptyString) EmptyString
      then inl (errors_BadRequestf "invalid tag %s" [AStr t])
      else parse_tags l' (<[nth 0 parts EmptyString := nth 1 parts EmptyString]> tags)
  end.

(** [Stats]: [provider] is the result of [zesty.NewDBProvider(utask.DBName)]. *)
Definition Stats (provider : error + DB) (in_ : StatsIn) : option StatsOut * option error :=
  match provider with
  | inl err => (None, Some err)
  | inr dbp =>
      match parse_tags (StatsIn_Tags in_) ∅ with
      | inl err => (None, Some err)
      | inr tags =>
          match task_LoadStateCount dbp tags with
          | inl err => (None, Some err)
          | inr states => (Some {| StatsOut_TaskStates := states |}, None)
          end
      end
  end.

End Stats.

Arguments StatsOut_TaskStates {TaskStates} _.

(** *** Routes and middlewares *)

(** [net/http] status codes used by the code. *)
Definition http_StatusUnauthorized : Z := 401.
Definition http_StatusForbidden : Z := 403.
Definition http_StatusMethodNotAllowed : Z := 405.

(** [gin]'s [abortIndex], [math.MaxInt8 >> 1]. *)
Definition abortIndex : Z := 63.

Section Gin.
(** [W] is the state the handlers act on besides the request: the database
    and the logs. *)
Variable W : Type.

(** What was written to the response: a status and, for [c.JSON], a body. *)
Record response : Type := {
  resp_status : Z;
  resp_json : list (string * string)
}.

(** A [*gin.Context]: the position in the handler chain, the response
    written so far, the values that package [auth] reads from it as a
    [context.Context], and the state outside the request. *)
Record GinContext : Type := {
  index : Z;
  written : option response;
  request_ctx : Context;
  world : W
}.

(** A [gin.HandlerFunc].  Its first argument is [c.Next], the rest of the
    chain as seen from this handler. *)
Definition HandlerFunc : Type := (GinContext → GinContext) → GinContext → GinContext.

Definition set_index (i : Z) (c : GinContext) : GinContext :=
  {| index := i; written := written c; request_ctx := request_ctx c; world := world c |}.

(** [c.AbortWithStatus(code)]: writes the status and sets the index to
    [abortIndex]. *)
Definition AbortWithStatus (code : Z) (c : GinContext) : GinContext :=
  {| index := abortIndex;
     written := Some {| resp_status := code; resp_json := [] |};
     request_ctx := request_ctx c; world := world c |}.

(** [c.JSON(code, obj)] for an object that is a map of strings. *)
Definition JSON (code : Z) (obj : list (string * string)) (c : GinContext) : GinContext :=
  {| index := index c;
     written := Some {| resp_status := code; resp_json := obj |};
     request_ctx := request_ctx c; world := world c |}.

(** The loop of [c.Next]: [for c.index < len(c.handlers) { c.handlers[c.index](c);
    c.index++ }], with [n] the length of the chain and [rest] the handlers
    from position [c.index] on.  A handler calls [c.Next] by calling its first
    argument, which increments the index and runs the loop on what follows. *)
Fixpoint chain_loop (n : Z) (rest : list HandlerFunc) (c : GinContext) : GinContext :=
  match rest with
  | [] => c
  | h :: rest' =>
      if (index c <? n)%Z
      then
        let c1 := h (fun c' => chain_loop n rest' (set_index (index c' + 1) c')) c in
        chain_loop n rest' (set_index (index c1 + 1) c1)
      else c
  end.

(** Serving a request: the context starts at index [-1] and [c.Next] is
    called once. *)
Definition serve (handlers : list HandlerFunc) (c : GinContext) : GinContext :=
  chain_loop (Z.of_nat (length handlers)) handlers (set_index 0 (set_index (-1) c)).

Definition requireAdmin (a : admins) : HandlerFunc :=
  fun next c =>
    match IsAdmin a (request_ctx c) with
    | Some _ => AbortWithStatus http_StatusUnauthorized c
    | None => next c
    end.

(** [maintenanceMode]; the flag is [utask.FMaintenanceMode]. *)
Definition maintenanceMode (FMaintenanceMode : bool) : HandlerFunc :=
  fun next c =>
    if FMaintenanceMode
    then JSON http_StatusMethodNotAllowed [("error", "Maintenance mode activated")] c
    else next c.

(** The fields of [Server] that make up a handler chain. *)
Record Server : Type := {
  authMiddleware : HandlerFunc;
  customMiddlewares : list HandlerFunc
}.

(** The handler returned by [gin.Recovery()], the middlewares and the
    [tonic] handler built in other files of the package are parameters. *)
Variables gin_Recovery ajaxHeadersMiddleware auditLogsMiddleware : HandlerFunc.
Variable tonic_DeleteTask : HandlerFunc.

(** The handlers in front of every route of [authRoutes]:
    [ginEngine.Use(gin.Recovery())], [router.Use(s.customMiddlewares...)],
    [router.Use(ajaxHeadersMiddleware, auditLogsMiddleware)] and the
    [s.authMiddleware] of the group. *)
Definition authRoutes_handlers (s : Server) : list HandlerFunc :=
  (gin_Recovery :: customMiddlewares s
     ++ [ajaxHeadersMiddleware; auditLogsMiddleware; authMiddleware s])%list.

(** The handlers registered by [build] on [taskRoutes.DELETE("/task/:id", ...)]. *)
Definition deleteTask_handlers (a : admins) (FMaintenanceMode : bool)
    : list HandlerFunc :=
  [requireAdmin a; maintenanceMode FMaintenanceMode; tonic_DeleteTask].

(** The complete chain of [DELETE /task/:id]. *)
Definition deleteTask_route (s : Server) (a : admins) (FMaintenanceMode : bool)
    : list HandlerFunc :=
  authRoutes_handlers s ++ deleteTask_handlers a FMaintenanceMode.

End Gin.

Arguments index {W} _.
Arguments written {W} _.
Arguments request_ctx {W} _.
Arguments world {W} _.
Arguments authMiddleware {W} _.
Arguments customMiddlewares {W} _.

End Api.

(** ** Package [api], continued: plugin routes, key rotation, metadata *)
Module ApiServer.
Import Auth Api.

(** [errors.NewNotImplemented(cause, msg)] *)
Definition errors_NewNotImplemented (cause : option error) (msg : string) : error :=
  MkError KNotImplemented msg [] cause.

Section PluginRoutes.
(** [W] as for the handlers of module [Api]; [OperationOption] is
    [fizz.OperationOption]. *)
Variables W OperationOption : Type.

Record PluginRoute : Type := {
  Secured : bool;
  Maintenance : bool;
  Path : string;
  Method : string;
  Infos : list OperationOption;
  Handlers : list (HandlerFunc W)
}.

Record PluginRouterGroup : Type := {
  GroupPath : string;
  GroupName : string;
  GroupDescription : string;
  Routes : list PluginRoute
}.

(** [for _, route := range group.Routes { if len(route.Handlers) == 0 {
    return ... } }] *)
Fixpoint check_routes (routes : list PluginRoute) : option error :=
  match routes with
  | [] => None
  | route :: routes' =>
      if (length (Handlers route) =? 0)%nat
      then Some (errors_NewNotImplemented None "found route without handler")
      else check_routes routes'
  end.

(** [RegisterPluginRoutes]: the field [s.pluginRoutes] before the call, the
    field after it and the error returned. *)
Definition RegisterPluginRoutes (pluginRoutes : list PluginRouterGroup)
    (group : PluginRouterGroup) : list PluginRouterGroup * option error :=
  match check_routes (Routes group) with
  | Some err => (pluginRoutes, Some err)
  | None => ((pluginRoutes ++ [group])%list, None)
  end.

(** The handlers that [build] gives to [group.Handle] for the plugin route
    [r]. *)
Definition plugin_routeHandlers (s : Server W) (FMaintenanceMode : bool)
    (r : PluginRoute) : list (HandlerFunc W) :=
  let routeHandlers : list (HandlerFunc W) := [] in
  let routeHandlers :=
    if Maintenance r then (routeHandlers ++ [maintenanceMode W FMaintenanceMode])%list
    else routeHandlers in
  let routeHandlers :=
    if Secured r then (routeHandlers ++ [authMiddleware s])%list else routeHandlers in
  (routeHandlers ++ Handlers r)%list.

End PluginRoutes.

Arguments Secured {W OperationOption} _.
Arguments Maintenance {W OperationOption} _.
Arguments Handlers {W OperationOption} _.
Arguments Routes {W OperationOption} _.

Section KeyRotate.
(** [W] is the encrypted content of the database; the three rotations are
    in other packages and are parameters. *)
Variables W DB : Type.
Variable db_CallKeyRotations : DB → W → W * option error.
Variable task_RotateTasks : DB → W → W * option error.
Variable resolution_RotateResolutions : DB → W → W * option error.


End KeyRotate.

Record rootOut : Type := {
  ApplicationName : string;
  UserIsAdmin : bool;
  Username : string;
  UserGroups : list string;
  Version : string;
  Commit : string
}.

(** [rootHandler]; [appName], [version] and [commit] are [utask.AppName()],
    [utask.Version] and [utask.Commit]. *)
Definition rootHandler (appName version commit : string) (a : admins) (c : Context)
    : option rootOut * option error :=
  let groups := GetGroups c in
  (Some {| ApplicationName := appName;
           UserIsAdmin := match IsAdmin a c with None => true | Some _ => false end;
           Username := GetIdentity c;
           UserGroups := groups;
           Version := version;
           Commit := commit |}, None).

End ApiServer.

(** ** Package [pluginapiovh] (the plugin [apiovh]) *)
Module PluginApiOvh.

(** [strings.Contains(s, substr)] *)
Fixpoint Contains (s substr : string) : bool :=
  if Strings.HasPrefix s substr then true
  else match s with
       | EmptyString => false
       | String _ s' => Contains s' substr
       end.

(** [fmt.Errorf(format, err)] for a format with one verb, [%s] or [%w]: the
    error given is kept under the format. *)
Definition fmt_Errorf_err (format : string) (err : error) : error :=
  MkError KPlain format [] (Some err).

Record APIOVHConfig : Type := {
  Credentials : string;
  Method : string;
  Path : string;
  Body : string
}.

Record ovhConfig : Type := {
  Endpoint : string;
  AppKey : string;
  AppSecret : string;
  ConsumerKey : string
}.

Section Plugin.
(** The configuration store, the JSON decoder of [ovhConfig], the client
    constructor of package [ovh], its table of endpoints, the template engine
    of package [values] and [url.Parse] are parameters.  Of a parsed URL only
    the host is read; [url.Parse] may give no URL. *)
Variable Client : Type.
Variable configstore_GetItemValue : string → error + string.
Variable json_Unmarshal_ovhConfig : string → error + ovhConfig.
Variable ovh_NewClient : string → string → string → string → error + Client.
Variable values_Apply : string → error + string.
Variable ovh_Endpoints : gmap string string.
Variable url_Parse_Host : string → option string.

Definition known_method (m : string) : bool :=
  String.eqb m "GET" || String.eqb m "POST" || String.eqb m "PUT"
  || String.eqb m "DELETE".

Definition validConfig (cfg : APIOVHConfig) : option error :=
  if negb (known_method (Method cfg))
  then Some (fmt_Errorf "unknown method for gw runner: %q" [AStr (Method cfg)])
  else if negb (Contains (Credentials cfg) "{{")
  then
    match configstore_GetItemValue (Credentials cfg) with
    | inl err => Some (fmt_Errorf_err "can't retrieve credentials from configstore: %s" err)
    | inr ovhCfgStr =>
        match json_Unmarshal_ovhConfig ovhCfgStr with
        | inl err =>
            Some (fmt_Errorf_err "can't unmarshal ovhConfig from configstore: %s" err)
        | inr ovhcfg =>
            match ovh_NewClient (Endpoint ovhcfg) (AppKey ovhcfg) (AppSecret ovhcfg)
                    (ConsumerKey ovhcfg) with
            | inl err => Some (fmt_Errorf_err "can't create new OVH client: %s" err)
            | inr _ => None
            end
        end
    end
  else
    match values_Apply (Credentials cfg) with
    | inl err => Some (fmt_Errorf_err "failed to parse credentials template: %w" err)
    | inr _ => None
    end.

Definition resourcesapiovh (cfg : APIOVHConfig) : list string :=
  let resources := ["socket"] in
  match configstore_GetItemValue (Credentials cfg) with
  | inl _ => resources
  | inr ovhCfgStr =>
      match json_Unmarshal_ovhConfig ovhCfgStr with
      | inl _ => resources
      | inr ovhcfg =>
          let endpoint :=
            if negb (String.eqb (Endpoint ovhcfg) EmptyString)
            then Endpoint ovhcfg else "ovh-eu" in
          match ovh_Endpoints !! endpoint with
          | Some host =>
              match url_Parse_Host host with
              | Some uri_Host =>
                  if negb (String.eqb uri_Host EmptyString)
                  then (resources ++ ["url:" +:+ uri_Host])%list
                  else resources
              | None => resources
              end
          | None => resources
          end
      end
  end.

(** The calls of [exec] to the client and the decoders: they are
    parameters.  [Net] is the state of the remote API, which only [cli.Do]
    changes. *)
Variables Net Request Response Value : Type.
Variable utils_JSONnumberUnmarshal : string → error + Value.
Variable cli_NewRequest : Client → string → string → option Value → bool → error + Request.
Variable cli_Do : Client → Request → Net → Net * (error + Response).
Variable httputil_UnmarshalResponse : Response → option Value * option Value * option error.

Definition exec (stepName : string) (cfg : APIOVHConfig) (net : Net)
    : Net * (option Value * option Value * option error) :=
  match configstore_GetItemValue (Credentials cfg) with
  | inl err =>
      (net, (None, None,
             Some (fmt_Errorf_err "can't retrieve credentials from configstore: %s" err)))
  | inr ovhCfgStr =>
      match json_Unmarshal_ovhConfig ovhCfgStr with
      | inl err =>
          (net, (None, None,
                 Some (fmt_Errorf_err "can't unmarshal ovhConfig from configstore: %s" err)))
      | inr ovhcfg =>
          match ovh_NewClient (Endpoint ovhcfg) (AppKey ovhcfg) (AppSecret ovhcfg)
                  (ConsumerKey ovhcfg) with
          | inl err =>
              (net, (None, None, Some (fmt_Errorf_err "can't create new OVH client: %s" err)))
          | inr cli =>
              let body : error + option Value :=
                if negb (String.eqb (Body cfg) EmptyString)
                then match utils_JSONnumberUnmarshal (Body cfg) with
                     | inl err => inl (fmt_Errorf_err "can't unmarshal body: %s" err)
                     | inr v => inr (Some v)
                     end
                else inr None in
              match body with
              | inl err => (net, (None, None, Some err))
              | inr body =>
                  match cli_NewRequest cli (Method cfg) (Path cfg) body true with
                  | inl err =>
                      (net, (None, None,
                             Some (fmt_Errorf_err "can't create new request: %s" err)))
                  | inr req =>
                      match cli_Do cli req net with
                      | (net', inl err) =>
                          (net', (None, None,
                                  Some (fmt_Errorf_err "can't execute request: %s" err)))
                      | (net', inr resp) => (net', httputil_UnmarshalResponse resp)
                      end
                  end
              end
          end
      end
  end.

End Plugin.

End PluginApiOvh.

(** * Properties *)

(** ** Ranging over a map *)
Module GoFacts.

Lemma range_lookup (R : MapRange) {V} (m : gmap string V) k v :
  (k, v) ∈ range R m ↔ m !! k = Some v.
Proof. rewrite (range_perm R V m). apply elem_of_map_to_list. Qed.

Lemma range_NoDup_keys (R : MapRange) {V} (m : gmap string V) :
  NoDup (range R m).*1.
Proof. rewrite (range_perm R V m). apply NoDup_fst_map_to_list. Qed.

End GoFacts.

(** ** Validation of the notification strategies *)
Module NotifyInitFacts.
Import Notify NotifyInit GoFacts.

(** The action names and strategy values of the configuration format. *)
Definition valid_action (a : string) : Prop :=
  a = "task_validation" ∨ a = "task_state_update" ∨ a = "task_step_update".

Definition valid_strategy (s : string) : Prop :=
  s = "always" ∨ s = "silent" ∨ s = "failure_only" ∨ s = "failure_or_done".

Definition failure_strategy (s : string) : Prop :=
  s = "failure_only" ∨ s = "failure_or_done".

(** The strategy [s] may be configured for the action [a]. *)
Definition allowed (a s : string) : Prop :=
  valid_strategy s ∧ ¬ (a = "task_validation" ∧ failure_strategy s).

(** [ncfg] configures the strategy [s] for the action [a], in its default
    map or in one of its per-template entries. *)
Definition configures (ncfg : NotifyBackend) (a s : string) : Prop :=
  (∃ d, DefaultNotificationStrategy ncfg = Some d ∧ d !! a = Some s)
  ∨ (∃ strats strat, TemplateNotificationStrategies ncfg !! a = Some strats
       ∧ strat ∈ strats ∧ NotificationStrategy strat = s).

(** The backends that pass validation: every key of the two maps is an
    action name and every strategy is allowed for the action it is given to. *)
Definition well_configured (ncfg : NotifyBackend) : Prop :=
  (∀ a s, default_map ncfg !! a = Some s → valid_action a ∧ allowed a s)
  ∧ (∀ a strats, TemplateNotificationStrategies ncfg !! a = Some strats →
       valid_action a ∧ ∀ strat, strat ∈ strats → allowed a (NotificationStrategy strat)).

Lemma validateActionName_true a : validateActionName a = true ↔ valid_action a.
Proof.
  unfold validateActionName, valid_action, TaskValidationKey, TaskStateUpdateKey,
    TaskStepUpdateKey.
  rewrite !orb_true_iff, !String.eqb_eq. tauto.
Qed.

Lemma validateStrategyForAction_None a s :
  validateStrategyForAction a s = None ↔ allowed a s.
Proof.
  unfold validateStrategyForAction, allowed, valid_strategy, failure_strategy,
    NotificationStrategyAlways, NotificationStrategySilent,
    NotificationStrategyFailureOnly, NotificationStrategyFailureOrDone,
    TaskValidationKey.
  destruct (String.eqb_spec s "always") as [->|Ha]; simpl.
  { split; [intros _|done]. split; [tauto|]. intros [_ [?|?]]; discriminate. }
  destruct (String.eqb_spec s "silent") as [->|Hs]; simpl.
  { split; [intros _|done]. split; [tauto|]. intros [_ [?|?]]; discriminate. }
  destruct (String.eqb_spec s "failure_only") as [->|Hfo].
  { destruct (String.eqb_spec a "task_validation") as [->|Hv].
    - split; [done|]. intros [_ H]. exfalso. apply H. tauto.
    - split; [intros _|done]. split; [tauto|]. intros [? _]. done. }
  destruct (String.eqb_spec s "failure_or_done") as [->|Hfd].
  { destruct (String.eqb_spec a "task_validation") as [->|Hv].
    - split; [done|]. intros [_ H]. exfalso. apply H. tauto.
    - split; [intros _|done]. split; [tauto|]. intros [? _]. done. }
  split; [done|]. intros [[?|[?|[?|?]]] _]; done.
Qed.

Lemma validateStrategyForAction_notAllowed a s :
  validateStrategyForAction a s = Some errNotAllowed ↔
  a = "task_validation" ∧ failure_strategy s.
Proof.
  unfold validateStrategyForAction, failure_strategy,
    NotificationStrategyAlways, NotificationStrategySilent,
    NotificationStrategyFailureOnly, NotificationStrategyFailureOrDone,
    TaskValidationKey.
  destruct (String.eqb_spec s "always") as [->|Ha]; simpl.
  { split; [done|]. intros [_ [?|?]]; discriminate. }
  destruct (String.eqb_spec s "silent") as [->|Hs]; simpl.
  { split; [done|]. intros [_ [?|?]]; discriminate. }
  destruct (String.eqb_spec s "failure_only") as [->|Hfo].
  { destruct (String.eqb_spec a "task_validation") as [->|Hv]; [tauto|].
    split; [done|]. intros [? _]; done. }
  destruct (String.eqb_spec s "failure_or_done") as [->|Hfd].
  { destruct (String.eqb_spec a "task_validation") as [->|Hv]; [tauto|].
    split; [done|]. intros [? _]; done. }
  split; [done|]. intros [_ [?|?]]; done.
Qed.

Lemma check_default_actions_None l :
  check_default_actions l = None ↔ ∀ a s, (a, s) ∈ l → valid_action a.
Proof.
  induction l as [|[a s] l IH]; simpl.
  - split; [|done]. intros _ ? ? H. by apply elem_of_nil in H.
  - destruct (validateActionName a) eqn:Ha; simpl.
    + rewrite IH. apply validateActionName_true in Ha. split.
      * intros H a' s' [Heq|Hin]%elem_of_cons; [by simplify_eq|eauto].
      * intros H a' s' Hin. apply (H a' s'). by right.
    + split; [done|]. intros H.
      assert (valid_action a) as Hv by (apply (H a s); by left).
      apply validateActionName_true in Hv. congruence.
Qed.

Lemma check_strats_None a strats :
  check_strats a strats = None ↔
  ∀ strat, strat ∈ strats → allowed a (NotificationStrategy strat).
Proof.
  induction strats as [|strat strats IH]; simpl.
  - split; [|done]. intros _ ? H. by apply elem_of_nil in H.
  - destruct (validateStrategyForAction a (NotificationStrategy strat)) as [[]|] eqn:Hv.
    + split; [done|]. intros H.
      assert (allowed a (NotificationStrategy strat)) as Hal by (apply H; by left).
      apply validateStrategyForAction_None in Hal. congruence.
    + split; [done|]. intros H.
      assert (allowed a (NotificationStrategy strat)) as Hal by (apply H; by left).
      apply validateStrategyForAction_None in Hal. congruence.
    + rewrite IH. apply validateStrategyForAction_None in Hv. split.
      * intros H strat' [->|Hin]%elem_of_cons; eauto.
      * intros H strat' Hin. apply H. by right.
Qed.

Lemma check_template_strategies_None l :
  check_template_strategies l = None ↔
  ∀ a strats, (a, strats) ∈ l →
    valid_action a ∧ ∀ strat, strat ∈ strats → allowed a (NotificationStrategy strat).
Proof.
  induction l as [|[a strats] l IH]; simpl.
  - split; [|done]. intros _ ? ? H. by apply elem_of_nil in H.
  - destruct (validateActionName a) eqn:Ha; simpl.
    + apply validateActionName_true in Ha.
      destruct (check_strats a strats) eqn:Hs.
      * split; [done|]. intros H.
        destruct (H a strats) as [_ Hall]; [by left|].
        apply (proj2 (check_strats_None _ _)) in Hall. congruence.
      * rewrite IH. pose proof (proj1 (check_strats_None _ _) Hs) as Hs'. split.
        -- intros H a' strats' [Heq|Hin]%elem_of_cons; [by simplify_eq|eauto].
        -- intros H a' strats' Hin. apply H. by right.
    + split; [done|]. intros H.
      destruct (H a strats) as [Hv _]; [by left|].
      apply validateActionName_true in Hv. congruence.
Qed.

(** The strategy the second loop checks for [a]: the configured one, or
    [always] when there is none. *)
Definition effective (ncfg : NotifyBackend) (a : string) : string :=
  default NotificationStrategyAlways (default_map ncfg !! a).

(** The configuration after one turn of the second loop for [action]. *)
Definition filled (ncfg : NotifyBackend) (action : string) : NotifyBackend :=
  with_default ncfg
    (match default_map ncfg !! action with
     | Some _ => default_map ncfg
     | None => <[action := NotificationStrategyAlways]> (default_map ncfg)
     end).

Lemma normalize_actions_cons R action acts ncfg :
  normalize_actions R (action :: acts) ncfg =
  match validateStrategyForAction action (effective ncfg action) with
  | Some errNotAllowed =>
      (filled ncfg action, Some (fmt_Errorf
         "invalid default_notification_strategy for action %q: %q is not allowed for this action"
         [AStr action; AStr (effective ncfg action)]))
  | Some errUnknown =>
      (filled ncfg action, Some (fmt_Errorf
         "invalid default_notification_strategy: %q is not a valid value"
         [AStrMap (DefaultNotificationStrategy (filled ncfg action))]))
  | None =>
      match check_template_strategies (range R (TemplateNotificationStrategies ncfg)) with
      | Some e => (filled ncfg action, Some e)
      | None => normalize_actions R acts (filled ncfg action)
      end
  end.
Proof.
  destruct ncfg as [ty [d|] tns cfg]; simpl;
    unfold effective, filled, default_map, with_default; simpl.
  - destruct (d !! action) as [s|] eqn:Hl; simpl; reflexivity.
  - rewrite lookup_empty. simpl. reflexivity.
Qed.

Lemma default_map_with_default ncfg d : default_map (with_default ncfg d) = d.
Proof. reflexivity. Qed.

Lemma default_map_filled ncfg action a :
  default_map (filled ncfg action) !! a =
  if decide (a = action) then Some (effective ncfg action) else default_map ncfg !! a.
Proof.
  unfold filled, effective. rewrite default_map_with_default.
  destruct (default_map ncfg !! action) as [s|] eqn:Hl; simpl.
  - case_decide; [by subst|done].
  - rewrite lookup_insert. case_decide; case_decide; congruence.
Qed.

Lemma effective_filled ncfg action a :
  effective (filled ncfg action) a = effective ncfg a.
Proof.
  unfold effective at 1. rewrite default_map_filled.
  case_decide; [by subst|done].
Qed.

Lemma normalize_actions_fields R acts ncfg :
  TemplateNotificationStrategies (normalize_actions R acts ncfg).1
    = TemplateNotificationStrategies ncfg
  ∧ Type_ (normalize_actions R acts ncfg).1 = Type_ ncfg
  ∧ Config (normalize_actions R acts ncfg).1 = Config ncfg.
Proof.
  revert ncfg. induction acts as [|action acts IH]; intros ncfg; [done|].
  rewrite normalize_actions_cons.
  destruct (validateStrategyForAction _ _) as [[]|]; [done|done|].
  destruct (check_template_strategies _); [done|].
  destruct (IH (filled ncfg action)) as (-> & -> & ->). done.
Qed.

(** When the second loop returns no error, it has accepted the effective
    strategy of each action and, when it ran at all, the per-template map. *)
Lemma normalize_actions_ok R acts ncfg :
  (normalize_actions R acts ncfg).2 = None ↔
  (∀ a, a ∈ acts → allowed a (effective ncfg a))
  ∧ (acts ≠ [] →
     check_template_strategies (range R (TemplateNotificationStrategies ncfg)) = None).
Proof.
  revert ncfg. induction acts as [|action acts IH]; intros ncfg.
  - simpl. split; [|done]. intros _. split; [|done]. intros a H. by apply elem_of_nil in H.
  - rewrite normalize_actions_cons.
    destruct (validateStrategyForAction action (effective ncfg action)) as [[]|] eqn:Hv.
    + simpl. split; [done|]. intros [H _].
      assert (allowed action (effective ncfg action)) as Hal by (apply H; by left).
      apply validateStrategyForAction_None in Hal. congruence.
    + simpl. split; [done|]. intros [H _].
      assert (allowed action (effective ncfg action)) as Hal by (apply H; by left).
      apply validateStrategyForAction_None in Hal. congruence.
    + apply validateStrategyForAction_None in Hv.
      destruct (check_template_strategies _) eqn:Ht.
      * simpl. split; [done|]. intros [_ H]. by specialize (H ltac:(done)).
      * rewrite IH. split.
        -- intros [H _]. split; [|done].
           intros a [->|Hin]%elem_of_cons; [done|].
           rewrite <- (effective_filled ncfg action). by apply H.
        -- intros [H _]. split; [|intros _; exact Ht].
           intros a Hin. rewrite effective_filled. apply H. by right.
Qed.

(** The default map after a run of the second loop that returned no error. *)
Lemma normalize_actions_map R acts ncfg a :
  (normalize_actions R acts ncfg).2 = None →
  default_map (normalize_actions R acts ncfg).1 !! a =
  if decide (a ∈ acts) then Some (effective ncfg a) else default_map ncfg !! a.
Proof.
  revert ncfg. induction acts as [|action acts IH]; intros ncfg.
  - simpl. intros _. destruct (decide (a ∈ [])) as [H|H]; [by apply elem_of_nil in H|done].
  - rewrite normalize_actions_cons.
    destruct (validateStrategyForAction action (effective ncfg action)) as [[]|];
      [done|done|].
    destruct (check_template_strategies _); [done|].
    intros Hok. rewrite (IH _ Hok), effective_filled, default_map_filled.
    destruct (decide (a ∈ acts)) as [Hin|Hnin].
    + rewrite decide_True; [done|by right].
    + destruct (decide (a = action)) as [->|Hne].
      * rewrite decide_True; [done|by left].
      * rewrite decide_False; [done|]. intros [?|?]%elem_of_cons; done.
Qed.

Lemma normalize_actions_Some R action acts ncfg :
  is_Some (DefaultNotificationStrategy (normalize_actions R (action :: acts) ncfg).1).
Proof.
  rewrite normalize_actions_cons.
  assert (∀ l n, is_Some (DefaultNotificationStrategy n) →
    is_Some (DefaultNotificationStrategy (normalize_actions R l n).1)) as Hkeep.
  { induction l as [|b l IH]; intros n Hn; [done|].
    rewrite normalize_actions_cons.
    destruct (validateStrategyForAction _ _) as [[]|]; [by eexists|by eexists|].
    destruct (check_template_strategies _); [by eexists|].
    apply IH. by eexists. }
  destruct (validateStrategyForAction _ _) as [[]|]; [by eexists|by eexists|].
  destruct (check_template_strategies _); [by eexists|].
  apply Hkeep. by eexists.
Qed.

Lemma configures_default ncfg a s :
  default_map ncfg !! a = Some s ↔
  ∃ d, DefaultNotificationStrategy ncfg = Some d ∧ d !! a = Some s.
Proof.
  unfold default_map. destruct (DefaultNotificationStrategy ncfg) as [d|].
  - split; [eauto|]. by intros (d' & [= <-] & ?).
  - rewrite lookup_empty. split; [done|]. by intros (d' & ? & ?).
Qed.

(** [validateAndNormalizeNotificationStrategy] returns no error exactly on
    the well-configured backends, whatever the order of the ranges. *)
Lemma validate_ok_iff R ncfg :
  (validateAndNormalizeNotificationStrategy R ncfg).2 = None ↔ well_configured ncfg.
Proof.
  unfold validateAndNormalizeNotificationStrategy, well_configured.
  destruct (check_default_actions _) eqn:Hd.
  - simpl. split; [done|]. intros [Hw _]. exfalso.
    assert (check_default_actions (range R (default_map ncfg)) = None) as Hn; [|congruence].
    apply check_default_actions_None. intros a s Hin%range_lookup.
    by apply (Hw a s).
  - pose proof (proj1 (check_default_actions_None _) Hd) as Hkeys.
    rewrite normalize_actions_ok, check_template_strategies_None. split.
    + intros [Hacts Htns]. split.
      * intros a s Hdef.
        assert (valid_action a) as Hva by (apply (Hkeys a s); by apply range_lookup).
        split; [done|].
        assert (effective ncfg a = s) as <- by (unfold effective; by rewrite Hdef).
        apply Hacts. unfold TaskValidationKey, TaskStateUpdateKey, TaskStepUpdateKey.
        destruct Hva as [-> | [-> | ->]]; rewrite !elem_of_cons; auto.
      * intros a strats Hl. apply (Htns ltac:(done) a strats). by apply range_lookup.
    + intros [Hw Ht]. split.
      * intros a Hin. unfold effective.
        destruct (default_map ncfg !! a) as [s|] eqn:Hl; simpl.
        -- by apply (Hw a s).
        -- apply validateStrategyForAction_None. reflexivity.
      * intros _ a strats Hin%range_lookup. by apply Ht.
Qed.

Section InitFacts.
Variables Sender NA Store : Type.
Variable utask_Config : Store → error + Cfg NA.
Variables opsgenie_case slack_case webhook_case : Store → string → NotifyBackend → error + Sender.

Local Abbreviation init_backends :=
  (init_backends Sender NA Store opsgenie_case slack_case webhook_case).
Local Abbreviation Init :=
  (Init Sender NA Store utask_Config opsgenie_case slack_case webhook_case).

(** The loop over the backends ends without error only when every backend it
    was given has passed validation. *)
Lemma init_backends_ok R store l g name ncfg :
  (init_backends R store l g).2 = None →
  (name, ncfg) ∈ l →
  (validateAndNormalizeNotificationStrategy R ncfg).2 = None.
Proof.
  revert g. induction l as [|[name' ncfg'] l IH]; intros g Hok Hin.
  - by apply elem_of_nil in Hin.
  - simpl in Hok.
    destruct (validateAndNormalizeNotificationStrategy R ncfg') as [newncfg [err|]] eqn:Hv;
      [done|].
    apply elem_of_cons in Hin as [Heq|Hin]; [simplify_eq; by rewrite Hv|].
    simpl in Hok.
    repeat match type of Hok with
           | context [if ?b then _ else _] => destruct b
           | context [match ?r with inl _ => _ | inr _ => _ end] => destruct r; [done|]
           end; try done; eauto.
Qed.

Lemma Init_ok R store g :
  (Init R store g).2 = None →
  ∃ cfg, utask_Config store = inr cfg
    ∧ ∀ name ncfg, NotifyConfig cfg !! name = Some ncfg → well_configured ncfg.
Proof.
  unfold NotifyInit.Init. destruct (utask_Config store) as [err|cfg]; [done|].
  destruct (init_backends R store _ g) as [g' [err|]] eqn:Hl; [done|].
  intros _. exists cfg. split; [done|]. intros name ncfg Hin%(range_lookup R).
  apply (validate_ok_iff R). eapply init_backends_ok; [|exact Hin]. by rewrite Hl.
Qed.

End InitFacts.

(** A backend used by the examples: an [opsgenie] backend with the given
    default map and per-template map. *)
Definition sample_backend (d : option (gmap string string))
    (tns : gmap string (list TemplateNotificationStrategy)) : NotifyBackend :=
  {| Type_ := "opsgenie"; DefaultNotificationStrategy := d;
     TemplateNotificationStrategies := tns; Config := "{}" |}.

(** A configuration source used by the examples: the store is the
    configuration itself and every transport can be built. *)
Definition sample_Config (store : Cfg unit) : error + Cfg unit := inr store.
Definition sample_case (store : Cfg unit) (name : string) (ncfg : NotifyBackend)
    : error + string := inr name.
Definition sample_store (ncfg : NotifyBackend) : Cfg unit :=
  {| NotifyConfig := {[ "ops" := ncfg ]}; NotifyActions := ();
     AdminUsernames := ["root"]; AdminGroups := [] |}.

(** C1: whenever a backend of the configuration gives the action
    [task_validation] the strategy [failure_only] or [failure_or_done], in
    its default map or in a per-template entry, [Init] returns an error;
    [validateStrategyForAction] accepts the two strategies for
    [task_state_update] and [task_step_update]. *)
Theorem C1_failure_strategies_rejected_for_validation
    (R : MapRange) (Sender NA Store : Type)
    (utask_Config : Store → error + Cfg NA)
    (opsgenie_case slack_case webhook_case : Store → string → NotifyBackend → error + Sender)
    (store : Store) (g : registry Sender NA) (cfg : Cfg NA)
    (name : string) (ncfg : NotifyBackend) (s : string) :
  utask_Config store = inr cfg →
  NotifyConfig cfg !! name = Some ncfg →
  failure_strategy s →
  (configures ncfg TaskValidationKey s →
   ∃ err, (Init Sender NA Store utask_Config opsgenie_case slack_case webhook_case
             R store g).2 = Some err)
  ∧ validateStrategyForAction TaskStateUpdateKey s = None
  ∧ validateStrategyForAction TaskStepUpdateKey s = None.
Proof.
  intros Hcfg Hin Hs. split; [|split].
  - intros Hconf.
    destruct (Init _ _ _ _ _ _ _ R store g).2 as [err|] eqn:Hinit; [by exists err|].
    exfalso. apply Init_ok in Hinit as (cfg' & Hcfg' & Hall).
    rewrite Hcfg in Hcfg'. injection Hcfg' as <-.
    destruct (Hall name ncfg Hin) as [Hdef Htns].
    destruct Hconf as [Hd|(strats & strat & Hl & Hmem & <-)].
    + apply configures_default in Hd. destruct (Hdef _ _ Hd) as [_ [_ Hno]]. by apply Hno.
    + destruct (Htns _ _ Hl) as [_ Hall']. destruct (Hall' _ Hmem) as [_ Hno]. by apply Hno.
  - apply validateStrategyForAction_None. split.
    + destruct Hs as [->| ->]; unfold valid_strategy; tauto.
    + intros [? _]. discriminate.
  - apply validateStrategyForAction_None. split.
    + destruct Hs as [->| ->]; unfold valid_strategy; tauto.
    + intros [? _]. discriminate.
Qed.

Lemma C1_witness :
  (∃ err, (Init string unit (Cfg unit) sample_Config sample_case sample_case sample_case
             canonicalRange
             (sample_store (sample_backend (Some {[ "task_validation" := "failure_only" ]}) ∅))
             (empty_registry string unit)).2 = Some err)
  ∧ validateStrategyForAction TaskStateUpdateKey "failure_only" = None
  ∧ validateStrategyForAction TaskStepUpdateKey "failure_only" = None.
Proof.
  destruct (C1_failure_strategies_rejected_for_validation canonicalRange string unit
           (Cfg unit) sample_Config sample_case sample_case sample_case
           (sample_store (sample_backend (Some {[ "task_validation" := "failure_only" ]}) ∅))
           (empty_registry string unit)
           (sample_store (sample_backend (Some {[ "task_validation" := "failure_only" ]}) ∅))
           "ops"
           (sample_backend (Some {[ "task_validation" := "failure_only" ]}) ∅)
           "failure_only") as (H1 & H2 & H3).
  - reflexivity.
  - vm_compute. reflexivity.
  - left. reflexivity.
  - split; [|split; assumption]. apply H1. left.
    exists {[ "task_validation" := "failure_only" ]}. split; [reflexivity|].
    vm_compute. reflexivity.
Defined.

(** C6: [Init] returns no error only if, in every backend of the
    configuration, every key of the default and per-template strategy maps is
    one of the three action names and every strategy is one of the four
    strategy values; a backend with any other key or strategy makes [Init]
    return an error. *)
Theorem C6_init_accepts_only_known_actions_and_strategies
    (R : MapRange) (Sender NA Store : Type)
    (utask_Config : Store → error + Cfg NA)
    (opsgenie_case slack_case webhook_case : Store → string → NotifyBackend → error + Sender)
    (store : Store) (g : registry Sender NA) (cfg : Cfg NA)
    (name : string) (ncfg : NotifyBackend) :
  utask_Config store = inr cfg →
  NotifyConfig cfg !! name = Some ncfg →
  let result :=
    (Init Sender NA Store utask_Config opsgenie_case slack_case webhook_case R store g).2 in
  (result = None →
     (∀ a s, configures ncfg a s → valid_action a ∧ valid_strategy s)
     ∧ (∀ a, is_Some (default_map ncfg !! a) → valid_action a)
     ∧ (∀ a, is_Some (TemplateNotificationStrategies ncfg !! a) → valid_action a))
  ∧ ((∃ a s, configures ncfg a s ∧ ¬ (valid_action a ∧ valid_strategy s)) →
     ∃ err, result = Some err)
  ∧ ((∃ a, (is_Some (default_map ncfg !! a)
            ∨ is_Some (TemplateNotificationStrategies ncfg !! a)) ∧ ¬ valid_action a) →
     ∃ err, result = Some err).
Proof.
  intros Hcfg Hin result.
  assert (result = None → well_configured ncfg) as Hwc.
  { intros Hinit. apply Init_ok in Hinit as (cfg' & Hcfg' & Hall).
    rewrite Hcfg in Hcfg'. injection Hcfg' as <-. by apply (Hall name). }
  assert (well_configured ncfg →
    (∀ a s, configures ncfg a s → valid_action a ∧ valid_strategy s)
    ∧ (∀ a, is_Some (default_map ncfg !! a) → valid_action a)
    ∧ (∀ a, is_Some (TemplateNotificationStrategies ncfg !! a) → valid_action a)) as Hchar.
  { intros [Hdef Htns]. split; [|split].
    - intros a s [Hd|(strats & strat & Hl & Hmem & <-)].
      + apply configures_default in Hd. destruct (Hdef _ _ Hd) as [? [? _]]. done.
      + destruct (Htns _ _ Hl) as [? Hall']. destruct (Hall' _ Hmem) as [? _]. done.
    - intros a [s Hs]. by destruct (Hdef _ _ Hs).
    - intros a [strats Hs]. by destruct (Htns _ _ Hs). }
  split; [|split].
  - intros Hr. by apply Hchar, Hwc.
  - intros (a & s & Hconf & Hbad). destruct result as [err|] eqn:Hr; [by exists err|].
    exfalso. apply Hbad. by apply (Hchar (Hwc eq_refl)).
  - intros (a & Hkey & Hbad). destruct result as [err|] eqn:Hr; [by exists err|].
    exfalso. apply Hbad. destruct (Hchar (Hwc eq_refl)) as (_ & H1 & H2).
    destruct Hkey; eauto.
Qed.

(** A configuration that [Init] accepts: the failure strategies on the two
    update actions, by default and for some templates. *)
Definition accepted_backend : NotifyBackend :=
  sample_backend
    (Some {[ "task_state_update" := "failure_only"; "task_validation" := "silent" ]})
    {[ "task_step_update" :=
         [ {| Templates := ["hello-world"]; NotificationStrategy := "failure_or_done" |} ] ]}.

Example Init_accepts :
  (Init string unit (Cfg unit) sample_Config sample_case sample_case sample_case
     canonicalRange (sample_store accepted_backend) (empty_registry string unit)).2 = None.
Proof. vm_compute. reflexivity. Qed.

Lemma C6_witness :
  (∀ a s, configures accepted_backend a s → valid_action a ∧ valid_strategy s)
  ∧ (∀ a, is_Some (default_map accepted_backend !! a) → valid_action a)
  ∧ (∀ a, is_Some (TemplateNotificationStrategies accepted_backend !! a) → valid_action a).
Proof.
  apply (C6_init_accepts_only_known_actions_and_strategies canonicalRange string unit
           (Cfg unit) sample_Config sample_case sample_case sample_case
           (sample_store accepted_backend) (empty_registry string unit)
           (sample_store accepted_backend) "ops" accepted_backend).
  - reflexivity.
  - vm_compute. reflexivity.
  - vm_compute. reflexivity.
Defined.

(** C8: when [validateAndNormalizeNotificationStrategy] returns no error,
    the default map of the configuration it returns is not [nil] and holds,
    for each of the three actions, the strategy of the input map, or [always]
    where the input map has none or is [nil]. *)
Theorem C8_defaults_filled_with_always (R : MapRange) (ncfg ncfg' : NotifyBackend) :
  validateAndNormalizeNotificationStrategy R ncfg = (ncfg', None) →
  ∃ d', DefaultNotificationStrategy ncfg' = Some d'
    ∧ ∀ a, a ∈ [TaskValidationKey; TaskStateUpdateKey; TaskStepUpdateKey] →
        d' !! a = Some (match DefaultNotificationStrategy ncfg with
                        | Some d => default NotificationStrategyAlways (d !! a)
                        | None => NotificationStrategyAlways
                        end).
Proof.
  unfold validateAndNormalizeNotificationStrategy.
  destruct (check_default_actions _); [done|]. intros Hn.
  pose proof (normalize_actions_Some R TaskValidationKey
                [TaskStateUpdateKey; TaskStepUpdateKey] ncfg) as [d' Hd'].
  rewrite Hn in Hd'. simpl in Hd'. exists d'. split; [done|].
  intros a Ha.
  pose proof (normalize_actions_map R
                [TaskValidationKey; TaskStateUpdateKey; TaskStepUpdateKey] ncfg a) as Hmap.
  rewrite Hn in Hmap. simpl in Hmap. specialize (Hmap eq_refl).
  rewrite decide_True in Hmap by done.
  unfold default_map in Hmap at 1. rewrite Hd' in Hmap. rewrite Hmap.
  unfold effective, default_map. destruct (DefaultNotificationStrategy ncfg); [done|].
  by rewrite lookup_empty.
Qed.

Lemma C8_witness :
  ∃ d', DefaultNotificationStrategy
          (validateAndNormalizeNotificationStrategy canonicalRange
             (sample_backend None ∅)).1 = Some d'
    ∧ ∀ a, a ∈ [TaskValidationKey; TaskStateUpdateKey; TaskStepUpdateKey] →
        d' !! a = Some NotificationStrategyAlways.
Proof.
  apply (C8_defaults_filled_with_always canonicalRange (sample_backend None ∅)).
  vm_compute. reflexivity.
Defined.

End NotifyInitFacts.

(** ** Dispatch of a message to the senders *)
Module NotifyFacts.
Import Notify GoFacts.

Section SendFacts.
Variables Sender Message NA : Type.
Variable checkIfDeliverMessage : Message → notificationBackend Sender → bool.

(** The goroutine that hands [m] to the sender registered as [name]. *)
Definition launch_of (m : Message) (name : string) (b : notificationBackend Sender)
    : launch Sender Message :=
  {| launch_sender := sender b; launch_message := m; launch_name := name |}.

Lemma send_all_spec m l x :
  x ∈ send_all checkIfDeliverMessage m l ↔
  ∃ name b, (name, b) ∈ l ∧ checkIfDeliverMessage m b = true ∧ x = launch_of m name b.
Proof.
  induction l as [|[name b] l IH]; simpl.
  - split; [by intros ?%elem_of_nil|]. by intros (? & ? & ?%elem_of_nil & _).
  - destruct (checkIfDeliverMessage m b) eqn:Hc.
    + rewrite elem_of_cons, IH. split.
      * intros [->|(name' & b' & Hin & Hc' & ->)].
        -- exists name, b. split_and!; [by left|done|done].
        -- exists name', b'. split_and!; [by right|done|done].
      * intros (name' & b' & [Heq|Hin]%elem_of_cons & Hc' & ->).
        -- simplify_eq. by left.
        -- right. by exists name', b'.
    + rewrite IH. split.
      * intros (name' & b' & Hin & Hc' & ->). exists name', b'. split_and!; [by right|done|done].
      * intros (name' & b' & [Heq|Hin]%elem_of_cons & Hc' & ->).
        -- simplify_eq. congruence.
        -- by exists name', b'.
Qed.

Lemma send_named_spec m n l x :
  x ∈ send_named checkIfDeliverMessage m n l ↔
  ∃ b, (n, b) ∈ l ∧ checkIfDeliverMessage m b = true ∧ x = launch_of m n b.
Proof.
  induction l as [|[nsname ns] l IH]; simpl.
  - split; [by intros ?%elem_of_nil|]. by intros (? & ?%elem_of_nil & _).
  - destruct (String.eqb_spec n nsname) as [<-|Hne].
    + destruct (checkIfDeliverMessage m ns) eqn:Hc.
      * rewrite elem_of_cons, IH. split.
        -- intros [->|(b' & Hin & Hc' & ->)].
           ++ exists ns. split_and!; [by left|done|done].
           ++ exists b'. split_and!; [by right|done|done].
        -- intros (b' & [Heq|Hin]%elem_of_cons & Hc' & ->).
           ++ simplify_eq. by left.
           ++ right. by exists b'.
      * rewrite IH. split.
        -- intros (b' & Hin & Hc' & ->). exists b'. split_and!; [by right|done|done].
        -- intros (b' & [Heq|Hin]%elem_of_cons & Hc' & ->).
           ++ simplify_eq. congruence.
           ++ by exists b'.
    + rewrite IH. split.
      * intros (b' & Hin & Hc' & ->). exists b'. split_and!; [by right|done|done].
      * intros (b' & [Heq|Hin]%elem_of_cons & Hc' & ->).
        -- simplify_eq.
        -- by exists b'.
Qed.

Lemma send_backends_spec R m (g : registry Sender NA) ns x :
  x ∈ send_backends checkIfDeliverMessage R m g ns ↔
  ∃ n b, n ∈ ns ∧ senders g !! n = Some b
         ∧ checkIfDeliverMessage m b = true ∧ x = launch_of m n b.
Proof.
  induction ns as [|n ns IH]; simpl.
  - split; [by intros ?%elem_of_nil|]. by intros (? & ? & ?%elem_of_nil & _).
  - rewrite elem_of_app, send_named_spec, IH. split.
    + intros [(b & Hin%range_lookup & Hc & ->)|(n' & b & Hin & Hl & Hc & ->)].
      * exists n, b. split_and!; [by left|done|done|done].
      * exists n', b. split_and!; [by right|done|done|done].
    + intros (n' & b & [->|Hin]%elem_of_cons & Hl & Hc & ->).
      * left. exists b. split_and!; [by apply range_lookup|done|done].
      * right. by exists n', b.
Qed.

(** C9: a disabled action launches nothing.  Otherwise the goroutines
    launched by [Send] are exactly those for the registered senders that pass
    [checkIfDeliverMessage] and, when [params.NotifyBackends] is not empty,
    whose name occurs in it; a name of that list under which no sender is
    registered launches nothing. *)
Theorem C9_send_selects_backends (R : MapRange) (g : registry Sender NA) (m : Message)
    (params : NotifyActionsParameters) :
  (Disabled params = true → Send checkIfDeliverMessage R g m params = [])
  ∧ (∀ x, x ∈ Send checkIfDeliverMessage R g m params ↔
       Disabled params = false
       ∧ ∃ name b, (NotifyBackends params = [] ∨ name ∈ NotifyBackends params)
           ∧ senders g !! name = Some b
           ∧ checkIfDeliverMessage m b = true
           ∧ x = launch_of m name b).
Proof.
  unfold Send. split.
  - by intros ->.
  - intros x. destruct (Disabled params).
    + split; [by intros ?%elem_of_nil|]. by intros [? _].
    + destruct (NotifyBackends params) as [|n ns] eqn:Hns; simpl.
      * rewrite send_all_spec. split.
        -- intros (name & b & Hin%range_lookup & Hc & ->). split; [done|].
           exists name, b. split_and!; [by left|done|done|done].
        -- intros (_ & name & b & _ & Hl & Hc & ->).
           exists name, b. split_and!; [by apply range_lookup|done|done].
      * change (send_named checkIfDeliverMessage m n (range R (senders g))
                  ++ send_backends checkIfDeliverMessage R m g ns)%list
          with (send_backends checkIfDeliverMessage R m g (n :: ns)).
        rewrite send_backends_spec. split.
        -- intros (name & b & Hin & Hl & Hc & ->). split; [done|].
           exists name, b. split_and!; [by right|done|done|done].
        -- intros (_ & name & b & [?|Hin] & Hl & Hc & ->); [done|].
           by exists name, b.
Qed.

End SendFacts.

(** A registry with two senders, used by the examples. *)
Definition two_senders : registry string unit :=
  RegisterSender "slack" "slack-sender" None ∅
    (RegisterSender "ops" "ops-sender" None ∅ (empty_registry string unit)).

Lemma C9_witness :
  Send (fun (_ : string) (_ : notificationBackend string) => true) canonicalRange
    two_senders "hello" {| Disabled := true; NotifyBackends := ["slack"] |} = [].
Proof.
  apply (C9_send_selects_backends string string unit (fun _ _ => true) canonicalRange
           two_senders "hello" {| Disabled := true; NotifyBackends := ["slack"] |}).
  reflexivity.
Defined.

(** With a list of backends, only the registered senders named in it are
    handed the message; the unknown name is ignored. *)
Example Send_named_only :
  Send (fun (_ : string) (_ : notificationBackend string) => true) canonicalRange
    two_senders "hello" {| Disabled := false; NotifyBackends := ["slack"; "nobody"] |}
  = [ {| launch_sender := "slack-sender"; launch_message := "hello"; launch_name := "slack" |} ].
Proof. vm_compute. reflexivity. Qed.

End NotifyFacts.

(** ** Authorisation *)
Module AuthFacts.
Import Auth.

Lemma ListContainsString_true l item : ListContainsString l item = true ↔ item ∈ l.
Proof.
  induction l as [|i l IH]; simpl.
  - split; [done|by intros ?%elem_of_nil].
  - rewrite elem_of_cons. destruct (String.eqb_spec i item) as [->|Hne].
    + tauto.
    + rewrite IH. split; [tauto|]. intros [?|?]; [congruence|done].
Qed.

Lemma HasIntersection_true a b :
  HasIntersection a b = true ↔ ∃ x, x ∈ a ∧ x ∈ b.
Proof.
  induction a as [|x a IH]; simpl.
  - split; [done|]. by intros (? & ?%elem_of_nil & _).
  - destruct (ListContainsString b x) eqn:Hx.
    + apply ListContainsString_true in Hx. split; [intros _|done].
      exists x. split; [by left|done].
    + rewrite IH. split.
      * intros (y & Hy & Hb). exists y. split; [by right|done].
      * intros (y & [->|Hy]%elem_of_cons & Hb).
        -- apply ListContainsString_true in Hb. congruence.
        -- by exists y.
Qed.

(** The caller is an admin: an admin username, or a member of an admin
    group. *)
Definition is_admin (a : admins) (ctx : Context) : Prop :=
  GetIdentity ctx ∈ adminUsers a ∨ ∃ g, g ∈ adminGroups a ∧ g ∈ GetGroups ctx.

Lemma IsAdmin_None a ctx : IsAdmin a ctx = None ↔ is_admin a ctx.
Proof.
  unfold IsAdmin, is_admin.
  destruct (ListContainsString _ _) eqn:Hu.
  - apply ListContainsString_true in Hu. tauto.
  - destruct (HasIntersection _ _) eqn:Hg.
    + apply HasIntersection_true in Hg. tauto.
    + split; [done|]. intros [Hin|Hex].
      * apply ListContainsString_true in Hin. congruence.
      * apply HasIntersection_true in Hex. congruence.
Qed.

Lemma IsAdmin_Some a ctx e :
  IsAdmin a ctx = Some e → e = errors_Forbiddenf "Not an admin user" [].
Proof.
  unfold IsAdmin. destruct (ListContainsString _ _); [done|].
  destruct (HasIntersection _ _); [done|]. congruence.
Qed.

(** The caller is an allowed resolver of the template, by username or by a
    shared group. *)
Definition template_owner (ctx : Context) (tt : option TaskTemplate) : Prop :=
  ∃ tt0, tt = Some tt0
    ∧ (GetIdentity ctx ∈ AllowedResolverUsernames tt0
       ∨ ∃ g, g ∈ AllowedResolverGroups tt0 ∧ g ∈ GetGroups ctx).

(** The four grounds on which the caller manages the resolution [r] of the
    task [t] built from the template [tt]. *)
Definition resolution_manager (ctx : Context) (tt : option TaskTemplate) (t : Task)
    (r : option Resolution_) : Prop :=
  template_owner ctx tt
  ∨ GetIdentity ctx ∈ ResolverUsernames t
  ∨ (∃ r0, r = Some r0 ∧ ResolverUsername r0 = GetIdentity ctx)
  ∨ (∃ g, g ∈ ResolverGroups t ∧ g ∈ GetGroups ctx).

Lemma IsTemplateOwner_None ctx tt : IsTemplateOwner ctx tt = None ↔ template_owner ctx tt.
Proof.
  unfold IsTemplateOwner, template_owner. destruct tt as [tt0|].
  - destruct (ListContainsString _ _) eqn:Hu.
    + apply ListContainsString_true in Hu. split; [intros _; eauto|done].
    + destruct (HasIntersection _ _) eqn:Hg.
      * apply HasIntersection_true in Hg. split; [intros _; eauto|done].
      * split; [done|]. intros (tt1 & [= <-] & [Hin|Hex]).
        -- apply ListContainsString_true in Hin. congruence.
        -- apply HasIntersection_true in Hex. congruence.
  - split; [done|]. by intros (? & ? & _).
Qed.

(** C5, as amended: for a task that is not [nil], [IsResolutionManager]
    returns [nil] exactly when the caller is an allowed resolver of the
    template, is listed in the resolver usernames of the task, is the resolver
    of the resolution, or shares a group with the resolver groups of the task,
    and returns a Forbidden error otherwise; for a [nil] task it returns the
    error "nil task", which is not a Forbidden error, whoever the caller
    is. *)
Theorem C5_resolution_manager_of_task (ctx : Context) (tt : option TaskTemplate)
    (t : Task) (r : option Resolution_) :
  (IsResolutionManager ctx tt (Some t) r = None ↔ resolution_manager ctx tt t r)
  ∧ (¬ resolution_manager ctx tt t r →
     IsResolutionManager ctx tt (Some t) r
       = Some (errors_Forbiddenf "User not authorized on this resolution" []))
  ∧ IsResolutionManager ctx tt None r = Some (errors_New "nil task")
  ∧ kind_of (errors_New "nil task") ≠ KForbidden.
Proof.
  assert (IsResolutionManager ctx tt (Some t) r = None
          ∨ IsResolutionManager ctx tt (Some t) r
              = Some (errors_Forbiddenf "User not authorized on this resolution" []))
    as Hcases.
  { unfold IsResolutionManager. destruct (IsTemplateOwner ctx tt); [|by left].
    destruct (ListContainsString _ _); [by left|].
    destruct (match r with Some _ => _ | None => _ end); [by left|].
    destruct (HasIntersection _ _); [by left|by right]. }
  assert (IsResolutionManager ctx tt (Some t) r = None ↔ resolution_manager ctx tt t r)
    as Hiff.
  { unfold IsResolutionManager, resolution_manager.
    destruct (IsTemplateOwner ctx tt) as [e|] eqn:Ho.
    - assert (¬ template_owner ctx tt) as Hno
        by (intros H%IsTemplateOwner_None; congruence).
      destruct (ListContainsString _ _) eqn:Hu.
      { apply ListContainsString_true in Hu. tauto. }
      assert (GetIdentity ctx ∉ ResolverUsernames t) as Hnu
        by (intros H%ListContainsString_true; congruence).
      destruct r as [r0|].
      + destruct (String.eqb_spec (ResolverUsername r0) (GetIdentity ctx)) as [Heq|Hne].
        { split; [intros _|done]. right; right; left. eauto. }
        destruct (HasIntersection _ _) eqn:Hg.
        { apply HasIntersection_true in Hg. tauto. }
        split; [done|]. intros [?|[?|[(r1 & [= <-] & ?)|Hex]]]; try done.
        apply HasIntersection_true in Hex. congruence.
      + destruct (HasIntersection _ _) eqn:Hg.
        { apply HasIntersection_true in Hg. tauto. }
        split; [done|]. intros [?|[?|[(r1 & ? & ?)|Hex]]]; try done.
        apply HasIntersection_true in Hex. congruence.
    - apply IsTemplateOwner_None in Ho. tauto. }
  split_and!; [exact Hiff| |reflexivity|discriminate].
  intros Hno. destruct Hcases as [Hnone|Hforb]; [|done].
  by apply Hiff in Hnone.
Qed.

(** A template that lists [alice] as an allowed resolver, and her context. *)
Definition alice_template : TaskTemplate :=
  {| TemplateName := "hello-world"; AllowedResolverUsernames := ["alice"];
     AllowedResolverGroups := []; AllowAllResolverUsernames := false;
     AutoRunnable := true; Blocked := false |}.
Definition alice : Context := WithIdentity Background "alice".

(** C5, as stated, fails on a [nil] task: the caller is an allowed resolver
    of the template, yet access is refused, and the error returned is not a
    Forbidden error. *)
Lemma C5_counterexample :
  template_owner alice (Some alice_template)
  ∧ IsResolutionManager alice (Some alice_template) None None ≠ None
  ∧ ∃ e, IsResolutionManager alice (Some alice_template) None None = Some e
         ∧ kind_of e ≠ KForbidden.
Proof.
  split_and!.
  - exists alice_template. split; [done|]. left. simpl. by left.
  - discriminate.
  - eexists. split; [reflexivity|discriminate].
Qed.

(** A task without resolvers of its own. *)
Definition plain_task : Task :=
  {| TaskPublicID := "t-1"; TaskState := "TODO"; RequesterUsername := "bob";
     WatcherUsernames := []; WatcherGroups := []; ResolverUsernames := [];
     ResolverGroups := []; Tags := None; BatchID := None; Resolution := None;
     Comments := [] |}.

Lemma C5_witness :
  IsResolutionManager alice (Some alice_template) (Some plain_task) None = None.
Proof.
  apply (C5_resolution_manager_of_task alice (Some alice_template) plain_task None).
  left. exists alice_template. split; [reflexivity|]. left. simpl. by left.
Defined.

End AuthFacts.

(** ** Task creation and the resumption of a parent task *)
Module TaskUtilsFacts.
Import Auth TaskUtils.

(** C2, as amended: for a blocked template, [CreateTask] returns the
    NotValid error "Template not available (blocked)", which is not a
    BadRequest error, and no task, and leaves the database, the notifications
    and the clock as they were: nothing is created, whatever [task.Create],
    [task.CreateComment] and [resolution.Create] do. *)
Theorem C2_blocked_template_rejected
    (W Input Batch Duration Time : Type)
    (task_Create :
       W → TaskTemplate → string → list string → list string → list string →
       list string → list string → Input → option (gmap string string) →
       option Batch → bool → W * (error + Task))
    (task_CreateComment : W → Task → string → string → W * (error + Comment))
    (NotifyValidationRequired : W → Task → TaskTemplate → W)
    (IsAutoRunnable : TaskTemplate → bool)
    (time_ParseDuration : string → error + Duration)
    (time_Now_Add : W → Duration → Time)
    (resolution_Create :
       W → Task → string → bool → option Time → W * (error + option Resolution_))
    (a : admins) (c : Context) (w : W) (tt : TaskTemplate)
    (watcherUsernames watcherGroups resolverUsernames resolverGroups : list string)
    (input : Input) (b : option Batch) (comment : string) (delay : option string)
    (tags : option (gmap string string)) :
  Blocked tt = true →
  CreateTask W Input Batch Duration Time task_Create task_CreateComment
    NotifyValidationRequired IsAutoRunnable time_ParseDuration time_Now_Add
    resolution_Create a c w tt watcherUsernames watcherGroups resolverUsernames
    resolverGroups input b comment delay tags
  = (w, inl (errors_NewNotValid None "Template not available (blocked)"))
  ∧ kind_of (errors_NewNotValid None "Template not available (blocked)") = KNotValid.
Proof. intros Hb. unfold CreateTask. rewrite Hb. done. Qed.

(** A small world for the examples: the tasks and resolutions created so
    far, by public id. *)
Definition sample_world : Type := list string * list string.

Definition sample_task (tt : TaskTemplate) (requester : string) : Task :=
  {| TaskPublicID := "task-of-" +:+ TemplateName tt; TaskState := "TODO";
     RequesterUsername := requester;
     WatcherUsernames := []; WatcherGroups := []; ResolverUsernames := [];
     ResolverGroups := []; Tags := None; BatchID := None; Resolution := None;
     Comments := [] |}.

Definition sample_task_Create (w : sample_world) (tt : TaskTemplate) (req : string)
    (_ _ _ _ _ : list string) (_ : unit) (_ : option (gmap string string))
    (_ : option unit) (_ : bool) : sample_world * (error + Task) :=
  ((TaskPublicID (sample_task tt req) :: w.1, w.2), inr (sample_task tt req)).

Definition sample_CreateComment (w : sample_world) (t : Task) (user content : string)
    : sample_world * (error + Comment) :=
  (w, inr {| CommentContent := content; CommentUsername := user |}).

Definition sample_resolution_Create (w : sample_world) (t : Task) (user : string)
    (_ : bool) (_ : option Z) : sample_world * (error + option Resolution_) :=
  ((w.1, ("res-of-" +:+ TaskPublicID t) :: w.2),
   inr (Some {| ResolutionPublicID := "res-of-" +:+ TaskPublicID t;
                ResolutionState := "TODO"; ResolverUsername := user |})).

Definition sample_CreateTask (tt : TaskTemplate) (c : Context)
    : sample_world * (error + Task) :=
  CreateTask sample_world unit unit Z Z sample_task_Create sample_CreateComment
    (fun w _ _ => w) AutoRunnable (fun _ => inr 0%Z) (fun _ d => d)
    sample_resolution_Create
    {| adminUsers := ["root"]; adminGroups := [] |} c ([], []) tt
    [] [] [] [] () None EmptyString None None.

Definition blocked_template : TaskTemplate :=
  {| TemplateName := "hello-world"; AllowedResolverUsernames := ["alice"];
     AllowedResolverGroups := []; AllowAllResolverUsernames := false;
     AutoRunnable := true; Blocked := true |}.

Lemma C2_witness :
  sample_CreateTask blocked_template (WithIdentity Background "alice")
  = (([], []), inl (errors_NewNotValid None "Template not available (blocked)"))
  ∧ kind_of (errors_NewNotValid None "Template not available (blocked)") = KNotValid.
Proof.
  apply (C2_blocked_template_rejected sample_world unit unit Z Z sample_task_Create
           sample_CreateComment (fun w _ _ => w) AutoRunnable (fun _ => inr 0%Z)
           (fun _ d => d) sample_resolution_Create).
  reflexivity.
Defined.

(** C2, as stated, fails on the kind of the error: the error returned for
    a blocked template is built by [errors.NewNotValid] and is not a
    BadRequest error. *)
Lemma C2_counterexample :
  ∃ e, sample_CreateTask blocked_template (WithIdentity Background "alice")
       = (([], []), inl e)
       ∧ kind_of e = KNotValid
       ∧ kind_of e ≠ KBadRequest.
Proof. eexists. split_and!; [reflexivity|reflexivity|discriminate]. Qed.

(** The same call on the template once unblocked creates a task and its
    resolution. *)
Example CreateTask_unblocked :
  (sample_CreateTask AuthFacts.alice_template (WithIdentity Background "alice")).1
  = (["task-of-hello-world"], ["res-of-task-of-hello-world"]).
Proof. vm_compute. reflexivity. Qed.

(** C3: for a finished task that carries the parent-task tag and belongs to
    a batch, [ShouldResumeParentTask] returns a parent task only if
    [batchutils.RunningTasks] counted no running task in the batch; when the
    count is not zero it returns [(nil, nil)]. *)
Theorem C3_parent_waits_for_batch
    (DB : Type) (SubtaskTagParentTaskID : string)
    (batchutils_RunningTasks : DB → Z → error + Z)
    (task_LoadFromPublicID : DB → string → error + Task)
    (resolution_LoadFromPublicID : DB → string → error + Resolution_)
    (dbp : DB) (t : Task) (tags : gmap string string) (parentTaskID : string)
    (batchID : Z) :
  TaskState t = task_StateDone ∨ TaskState t = task_StateWontfix
    ∨ TaskState t = task_StateCancelled →
  Tags t = Some tags →
  tags !! SubtaskTagParentTaskID = Some parentTaskID →
  BatchID t = Some batchID →
  let result :=
    ShouldResumeParentTask DB SubtaskTagParentTaskID batchutils_RunningTasks
      task_LoadFromPublicID resolution_LoadFromPublicID dbp t in
  (∀ parentTask, result.1 = Some parentTask →
     batchutils_RunningTasks dbp batchID = inr 0%Z)
  ∧ (∀ running, batchutils_RunningTasks dbp batchID = inr running → running ≠ 0%Z →
     result = (None, None)).
Proof.
  intros Hstate Htags Hparent Hbatch result. subst result.
  unfold ShouldResumeParentTask.
  assert (finished_state (TaskState t) = true) as ->.
  { unfold finished_state. destruct Hstate as [-> | [-> | ->]]; reflexivity. }
  simpl. rewrite Htags, Hparent, Hbatch.
  destruct (batchutils_RunningTasks dbp batchID) as [err|running].
  - split; [done|done].
  - destruct (Z.eqb_spec running 0) as [->|Hne]; simpl.
    + split; [done|]. intros ? [= <-]. done.
    + split; [done|]. done.
Qed.

(** A database for the examples: the number of running tasks of the only
    batch, and one parent task with its resolution. *)
Definition sample_parent : Task :=
  {| TaskPublicID := "parent"; TaskState := "WAITING"; RequesterUsername := "alice";
     WatcherUsernames := []; WatcherGroups := []; ResolverUsernames := [];
     ResolverGroups := []; Tags := None; BatchID := None; Resolution := Some "res";
     Comments := [] |}.

Definition sample_child : Task :=
  {| TaskPublicID := "child"; TaskState := "DONE"; RequesterUsername := "alice";
     WatcherUsernames := []; WatcherGroups := []; ResolverUsernames := [];
     ResolverGroups := []; Tags := Some {[ "_utask_parent_task_id" := "parent" ]};
     BatchID := Some 7%Z; Resolution := None; Comments := [] |}.

Definition sample_ShouldResume (running : Z) : option Task * option error :=
  ShouldResumeParentTask Z "_utask_parent_task_id"
    (fun db _ => inr db)
    (fun _ id => if String.eqb id "parent" then inr sample_parent
                 else inl (errors_New "not found"))
    (fun _ id => inr {| ResolutionPublicID := id; ResolutionState := "WAITING";
                        ResolverUsername := "alice" |})
    running sample_child.

Lemma C3_witness : sample_ShouldResume 2 = (None, None).
Proof.
  apply (C3_parent_waits_for_batch Z "_utask_parent_task_id" (fun db _ => inr db)
           (fun _ id => if String.eqb id "parent" then inr sample_parent
                        else inl (errors_New "not found"))
           (fun _ id => inr {| ResolutionPublicID := id; ResolutionState := "WAITING";
                               ResolverUsername := "alice" |})
           2%Z sample_child {[ "_utask_parent_task_id" := "parent" ]} "parent" 7%Z)
    with (running := 2%Z).
  - left. reflexivity.
  - reflexivity.
  - vm_compute. reflexivity.
  - reflexivity.
  - reflexivity.
  - discriminate.
Defined.

(** Once no sibling is running, the parent is returned. *)
Example ShouldResume_when_batch_done : sample_ShouldResume 0 = (Some sample_parent, None).
Proof. vm_compute. reflexivity. Qed.

End TaskUtilsFacts.

(** ** The statistics endpoint *)
Module StatsFacts.
Import Api.

Example Split_pair : Strings.Split "env=prod" "=" = ["env"; "prod"].
Proof. reflexivity. Qed.
Example Split_no_separator : Strings.Split "env" "=" = ["env"].
Proof. reflexivity. Qed.
Example Split_empty : Strings.Split EmptyString "=" = [EmptyString].
Proof. reflexivity. Qed.
Example Split_three : Strings.Split "a=b=c" "=" = ["a"; "b"; "c"].
Proof. reflexivity. Qed.
Example Split_empty_key : Strings.Split "=prod" "=" = [EmptyString; "prod"].
Proof. reflexivity. Qed.
Example Split_empty_value : Strings.Split "env=" "=" = ["env"; EmptyString].
Proof. reflexivity. Qed.
Example Split_long_separator : Strings.Split "a, b, c" ", " = ["a"; "b"; "c"].
Proof. reflexivity. Qed.

(** The tag splits on "=" into exactly two parts, neither of them empty. *)
Definition well_formed_tag (t : string) : Prop :=
  ∃ k v, Strings.Split t "=" = [k; v] ∧ k ≠ EmptyString ∧ v ≠ EmptyString.

(** The key and the value of a well-formed tag. *)
Definition tag_key (t : string) : string := nth 0 (Strings.Split t "=") EmptyString.
Definition tag_value (t : string) : string := nth 1 (Strings.Split t "=") EmptyString.

(** The map built from a list of well-formed tags: of two tags with the same
    key, the later one wins. *)
Definition tag_map (l : list string) : gmap string string :=
  foldl (fun tags t => <[tag_key t := tag_value t]> tags) ∅ l.

Lemma well_formed_tag_test t :
  well_formed_tag t ↔
  (length (Strings.Split t "=") =? 2)%nat = true
  ∧ String.eqb (tag_key t) EmptyString = false ∧ String.eqb (tag_value t) EmptyString = false.
Proof.
  unfold well_formed_tag, tag_key, tag_value. split.
  - intros (k & v & -> & Hk & Hv). simpl. by rewrite !String.eqb_neq.
  - intros (Hlen & Hk & Hv). apply Nat.eqb_eq in Hlen.
    destruct (Strings.Split t "=") as [|k [|v [|? ?]]]; try discriminate.
    exists k, v. simpl in *. by rewrite <- !String.eqb_neq.
Qed.

Section StatsProofs.
Variables TaskStates DB : Type.
Variable task_LoadStateCount : DB → gmap string string → error + TaskStates.

Lemma parse_tags_ok l tags :
  (∀ t, t ∈ l → well_formed_tag t) →
  parse_tags l tags = inr (foldl (fun tags t => <[tag_key t := tag_value t]> tags) tags l).
Proof.
  revert tags. induction l as [|t l IH]; intros tags Hall; [done|].
  assert (well_formed_tag t) as (Hlen & Hk & Hv)%well_formed_tag_test
    by (apply Hall; by left).
  simpl. unfold tag_key, tag_value in *. rewrite Hlen, Hk, Hv. simpl.
  apply IH. intros t' Hin. apply Hall. by right.
Qed.

Lemma parse_tags_malformed l tags :
  (∃ t, t ∈ l ∧ ¬ well_formed_tag t) →
  ∃ t, t ∈ l ∧ ¬ well_formed_tag t
       ∧ parse_tags l tags = inl (errors_BadRequestf "invalid tag %s" [AStr t]).
Proof.
  revert tags. induction l as [|t l IH]; intros tags (t0 & Hin & Hbad).
  - by apply elem_of_nil in Hin.
  - simpl.
    destruct (length (Strings.Split t "=") =? 2)%nat eqn:Hlen; simpl.
    + destruct (String.eqb (nth 0 (Strings.Split t "=") EmptyString) EmptyString) eqn:Hk; simpl.
      { exists t. split_and!; [by left| |done].
        intros (_ & Hk' & _)%well_formed_tag_test. unfold tag_key in Hk'. congruence. }
      destruct (String.eqb (nth 1 (Strings.Split t "=") EmptyString) EmptyString) eqn:Hv; simpl.
      { exists t. split_and!; [by left| |done].
        intros (_ & _ & Hv')%well_formed_tag_test. unfold tag_value in Hv'. congruence. }
      apply elem_of_cons in Hin as [->|Hin].
      { exfalso. apply Hbad. by apply well_formed_tag_test. }
      destruct (IH (<[nth 0 (Strings.Split t "=") EmptyString := nth 1 (Strings.Split t "=") EmptyString]> tags))
        as (t1 & Hin1 & Hbad1 & Hres); [by exists t0|].
      exists t1. split_and!; [by right|done|done].
    + exists t. split_and!; [by left| |done].
      intros (Hlen' & _)%well_formed_tag_test. congruence.
Qed.

(** C10, as amended: when the database provider cannot be obtained, [Stats]
    returns its error before looking at the tags.  Otherwise, if some tag
    does not split on "=" into exactly two non-empty parts, [Stats] returns a
    BadRequest error naming such a tag and no statistics; if every tag does,
    it returns what [task.LoadStateCount] gives for the parsed tag map: the
    counts, or the error of the query and no statistics. *)
Theorem C10_stats_validates_tags (provider : error + DB)
    (in_ : StatsIn) :
  (∀ err, provider = inl err →
     Stats TaskStates DB task_LoadStateCount provider in_ = (None, Some err))
  ∧ (∀ dbp, provider = inr dbp →
       ((∃ t, t ∈ StatsIn_Tags in_ ∧ ¬ well_formed_tag t) →
        ∃ t, t ∈ StatsIn_Tags in_ ∧ ¬ well_formed_tag t
             ∧ Stats TaskStates DB task_LoadStateCount provider in_
               = (None, Some (errors_BadRequestf "invalid tag %s" [AStr t]))
             ∧ kind_of (errors_BadRequestf "invalid tag %s" [AStr t]) = KBadRequest)
       ∧ ((∀ t, t ∈ StatsIn_Tags in_ → well_formed_tag t) →
          Stats TaskStates DB task_LoadStateCount provider in_
          = match task_LoadStateCount dbp (tag_map (StatsIn_Tags in_)) with
            | inl err => (None, Some err)
            | inr states => (Some {| StatsOut_TaskStates := states |}, None)
            end)).
Proof.
  split.
  - by intros err ->.
  - intros dbp ->. split.
    + intros Hbad. destruct (parse_tags_malformed _ ∅ Hbad) as (t & Hin & Hnwf & Hres).
      exists t. split_and!; [done|done| |done]. unfold Stats. by rewrite Hres.
    + intros Hall. unfold Stats, tag_map. rewrite (parse_tags_ok _ ∅ Hall).
      by destruct (task_LoadStateCount dbp _).
Qed.

End StatsProofs.

(** A state count for the examples: the number of tags given. *)
Definition sample_LoadStateCount (db : unit) (tags : gmap string string)
    : error + gmap string nat :=
  inr {[ "DONE" := size tags ]}.

Lemma C10_witness :
  Stats (gmap string nat) unit sample_LoadStateCount (inr ())
    {| StatsIn_Tags := ["env=prod"; "team=core"] |}
  = (Some {| StatsOut_TaskStates := {[ "DONE" := 2 ]} |}, None).
Proof.
  destruct (C10_stats_validates_tags (gmap string nat) unit sample_LoadStateCount
              (inr ()) {| StatsIn_Tags := ["env=prod"; "team=core"] |}) as [_ H].
  destruct (H () eq_refl) as [_ Hok]. rewrite Hok.
  - vm_compute. reflexivity.
  - intros t Hin. simpl in Hin.
    apply elem_of_cons in Hin as [->|Hin].
    { exists "env", "prod". split_and!; [reflexivity|discriminate|discriminate]. }
    apply elem_of_cons in Hin as [->|Hin].
    { exists "team", "core". split_and!; [reflexivity|discriminate|discriminate]. }
    exfalso. exact (proj1 (elem_of_nil t) Hin).
Defined.

(** C10, as stated, fails when the database provider cannot be obtained:
    the tag is malformed, yet the error returned is the provider's and not a
    BadRequest error.  It also fails when the query fails: every tag is well
    formed, yet no counts are returned. *)
Lemma C10_counterexample :
  (¬ well_formed_tag "oops"
   ∧ ∃ e, Stats (gmap string nat) unit sample_LoadStateCount
            (inl (errors_New "no database")) {| StatsIn_Tags := ["oops"] |}
          = (None, Some e)
          ∧ kind_of e ≠ KBadRequest)
  ∧ (well_formed_tag "env=prod"
     ∧ Stats (gmap string nat) unit (fun _ _ => inl (errors_New "query failed"))
         (inr ()) {| StatsIn_Tags := ["env=prod"] |}
       = (None, Some (errors_New "query failed"))).
Proof.
  split; split.
  - intros (k & v & H & _). discriminate.
  - eexists. split; [reflexivity|discriminate].
  - exists "env", "prod". split_and!; [reflexivity|discriminate|discriminate].
  - reflexivity.
Qed.

Example Stats_rejects_malformed :
  Stats (gmap string nat) unit sample_LoadStateCount (inr ())
    {| StatsIn_Tags := ["env=prod"; "a=b=c"] |}
  = (None, Some (errors_BadRequestf "invalid tag %s" [AStr "a=b=c"])).
Proof. reflexivity. Qed.

End StatsFacts.

(** ** The admin gate of the routes *)
Module RouteFacts.
Import Auth Api AuthFacts.

Section GateFacts.
Variable W : Type.
Variables gin_Recovery ajaxHeadersMiddleware auditLogsMiddleware : HandlerFunc W.
Variable tonic_DeleteTask : HandlerFunc W.

(** Past the end of the chain, and after an abort, the loop runs nothing. *)
Lemma chain_loop_stops n rest (c : GinContext W) :
  (n ≤ index c)%Z → chain_loop W n rest c = c.
Proof.
  intros Hle. destruct rest as [|h rest]; [done|]. simpl.
  apply Z.ltb_ge in Hle. by rewrite Hle.
Qed.

Lemma chain_loop_cons n h rest (c : GinContext W) :
  (index c < n)%Z →
  chain_loop W n (h :: rest) c =
  chain_loop W n rest
    (set_index W
       (index (h (fun c' => chain_loop W n rest (set_index W (index c' + 1) c')) c) + 1)
       (h (fun c' => chain_loop W n rest (set_index W (index c' + 1) c')) c)).
Proof. intros Hlt. simpl. apply Z.ltb_lt in Hlt. by rewrite Hlt. Qed.

(** Whatever follows it in the chain, [requireAdmin] aborts the request of
    a caller for whom [auth.IsAdmin] returns an error. *)
Lemma requireAdmin_denied a next (c : GinContext W) e :
  IsAdmin a (request_ctx c) = Some e →
  requireAdmin W a next c = AbortWithStatus W http_StatusUnauthorized c.
Proof. intros He. unfold requireAdmin. by rewrite He. Qed.

(** C7, as amended: when the chain of [DELETE /task/:id] reaches
    [requireAdmin] with a caller that is not an admin, the request is aborted
    with the status 401 Unauthorized, which is not 403 Forbidden; neither
    [maintenanceMode] nor the delete handler is run, so that the outcome does
    not depend on them and the state outside the request is left as it
    was.  The chain is shorter than [abortIndex], as [gin] demands. *)
Theorem C7_delete_task_requires_admin (s : Server W) (a : admins)
    (FMaintenanceMode : bool) (c : GinContext W) :
  ¬ is_admin a (request_ctx c) →
  index c = Z.of_nat (length (authRoutes_handlers W gin_Recovery ajaxHeadersMiddleware
                                auditLogsMiddleware s)) →
  (Z.of_nat (length (deleteTask_route W gin_Recovery ajaxHeadersMiddleware
                       auditLogsMiddleware tonic_DeleteTask s a FMaintenanceMode))
   < abortIndex)%Z →
  let result :=
    chain_loop W
      (Z.of_nat (length (deleteTask_route W gin_Recovery ajaxHeadersMiddleware
                           auditLogsMiddleware tonic_DeleteTask s a FMaintenanceMode)))
      (deleteTask_handlers W tonic_DeleteTask a FMaintenanceMode) c in
  result = set_index W (abortIndex + 1) (AbortWithStatus W http_StatusUnauthorized c)
  ∧ written result = Some {| resp_status := http_StatusUnauthorized; resp_json := [] |}
  ∧ world result = world c
  ∧ http_StatusUnauthorized ≠ http_StatusForbidden.
Proof.
  intros Hna Hidx Hlen result. subst result.
  assert (∃ e, IsAdmin a (request_ctx c) = Some e) as [e He].
  { destruct (IsAdmin a (request_ctx c)) as [e|] eqn:H; [by exists e|].
    by apply IsAdmin_None in H. }
  set (n := Z.of_nat (length (deleteTask_route W gin_Recovery ajaxHeadersMiddleware
                                auditLogsMiddleware tonic_DeleteTask s a FMaintenanceMode)))
    in *.
  assert (index c < n)%Z as Hlt.
  { subst n. unfold deleteTask_route. rewrite length_app, Hidx. simpl. lia. }
  assert (abortIndex = 63%Z) as Habort by reflexivity.
  unfold deleteTask_handlers.
  rewrite chain_loop_cons by exact Hlt.
  rewrite (requireAdmin_denied a _ c e He).
  rewrite chain_loop_stops by (simpl; lia).
  split_and!; [reflexivity|reflexivity|reflexivity|discriminate].
Qed.

End GateFacts.

(** A server for the examples.  The world is the list of the tasks in the
    database; the request carries the identity of the caller, the recovery
    handler and the middlewares pass the request on, and the delete handler
    empties the database and answers 204. *)
Definition sample_request (caller : string) : GinContext (list string) :=
  {| index := 0; written := None;
     request_ctx := WithIdentity Background caller; world := ["task-1"] |}.

Definition pass_on : HandlerFunc (list string) := fun next c => next c.

Definition sample_delete : HandlerFunc (list string) :=
  fun next c =>
    {| index := index c;
       written := Some {| resp_status := 204; resp_json := [] |};
       request_ctx := request_ctx c; world := [] |}.

Definition sample_server : Server (list string) :=
  {| authMiddleware := pass_on; customMiddlewares := [] |}.

Definition sample_admins : admins := {| adminUsers := ["root"]; adminGroups := ["ops"] |}.

Definition sample_route : list (HandlerFunc (list string)) :=
  deleteTask_route (list string) pass_on pass_on pass_on sample_delete sample_server
    sample_admins false.

Lemma C7_witness :
  written (chain_loop (list string) 7
             (deleteTask_handlers (list string) sample_delete sample_admins false)
             (set_index (list string) 4 (sample_request "mallory")))
  = Some {| resp_status := 401; resp_json := [] |}.
Proof.
  apply (C7_delete_task_requires_admin (list string) pass_on pass_on pass_on sample_delete
           sample_server sample_admins false
           (set_index (list string) 4 (sample_request "mallory"))).
  - intros [Hu|(g & Hg & Hin)].
    + simpl in Hu. apply elem_of_cons in Hu as [Hu|Hu]; [discriminate|].
      exact (proj1 (elem_of_nil _) Hu).
    + simpl in Hin. exact (proj1 (elem_of_nil g) Hin).
  - reflexivity.
  - reflexivity.
Defined.

(** C7, as stated, fails on the status: served from the start, the request
    of a caller that is not an admin is answered 401, not 403 Forbidden; the
    database keeps its task. *)
Lemma C7_counterexample :
  written (serve (list string) sample_route (sample_request "mallory"))
    = Some {| resp_status := 401; resp_json := [] |}
  ∧ world (serve (list string) sample_route (sample_request "mallory")) = ["task-1"]
  ∧ written (serve (list string) sample_route (sample_request "mallory"))
    ≠ Some {| resp_status := http_StatusForbidden; resp_json := [] |}.
Proof. split_and!; [reflexivity|reflexivity|discriminate]. Qed.

(** The same request from an admin reaches the delete handler. *)
Example delete_task_by_admin :
  written (serve (list string) sample_route (sample_request "root"))
    = Some {| resp_status := 204; resp_json := [] |}
  ∧ world (serve (list string) sample_route (sample_request "root")) = [].
Proof. split; reflexivity. Qed.

End RouteFacts.

(** ** The gauge and its refresh *)
Module MetricsFacts.
Import Api GoFacts.

Section UpdateFacts.
Variables float64 DB : Type.
Variable task_LoadStateCountResolverGroup : DB → stateCounts float64 * option error.

Local Abbreviation update_states := (update_states float64).
Local Abbreviation update_templates := (update_templates float64).
Local Abbreviation update_groups := (update_groups float64).

Lemma update_states_other group template l (x : exporter float64) lvs :
  (∀ state count, (state, count) ∈ l → lvs ≠ [state; template; group]) →
  gauges (update_states group template l x) !! lvs = gauges x !! lvs.
Proof.
  revert x. induction l as [|[state count] l IH]; intros x Hne; [done|].
  simpl. rewrite IH.
  - simpl. apply lookup_insert_ne. intros Heq.
    apply (Hne state count); [by left|done].
  - intros state' count' Hin. apply (Hne state' count'). by right.
Qed.


Lemma update_templates_other R group l (x : exporter float64) lvs :
  (∀ template templateStats state count,
     (template, templateStats) ∈ l → templateStats !! state = Some count →
     lvs ≠ [state; template; group]) →
  gauges (update_templates R group l x) !! lvs = gauges x !! lvs.
Proof.
  revert x. induction l as [|[template templateStats] l IH]; intros x Hne; [done|].
  simpl. rewrite IH.
  - apply update_states_other. intros state count Hin%range_lookup.
    apply (Hne template templateStats state count); [by left|done].
  - intros template' templateStats' state count Hin.
    apply (Hne template' templateStats' state count). by right.
Qed.


Lemma update_groups_other R l (x : exporter float64) lvs :
  (∀ group groupStats template templateStats state count,
     (group, groupStats) ∈ l → groupStats !! template = Some templateStats →
     templateStats !! state = Some count → lvs ≠ [state; template; group]) →
  gauges (update_groups R l x) !! lvs = gauges x !! lvs.
Proof.
  revert x. induction l as [|[group groupStats] l IH]; intros x Hne; [done|].
  simpl. rewrite IH.
  - apply update_templates_other. intros template ts state count Hin%range_lookup Hs.
    apply (Hne group groupStats template ts state count); [by left|done|done].
  - intros group' gs' template ts state count Hin.
    apply (Hne group' gs' template ts state count). by right.
Qed.



(** The gauges for which the query result has no count are left as they
    were. *)
Lemma updateMetrics_keeps R dbp (x : exporter float64) stats err lvs :
  task_LoadStateCountResolverGroup dbp = (stats, err) →
  (∀ group groupStats template templateStats state count,
     stats !! group = Some groupStats → groupStats !! template = Some templateStats →
     templateStats !! state = Some count → lvs ≠ [state; template; group]) →
  gauges (updateMetrics float64 DB task_LoadStateCountResolverGroup R dbp x) !! lvs
  = gauges x !! lvs.
Proof.
  intros Hload Hne. unfold updateMetrics. rewrite Hload.
  rewrite update_groups_other.
  - by destruct err.
  - intros group gs template ts state count Hin%range_lookup.
    by apply (Hne group gs template ts state count).
Qed.

(** Once the goroutine has returned, nothing more is received. *)
Lemma collector_run_stopped R (c : collector float64) es :
  looping c = false →
  collector_run float64 DB task_LoadStateCountResolverGroup R c es = c.
Proof.
  intros Hl. unfold collector_run. induction es as [|e es IH]; [done|].
  simpl. unfold collector_step at 2. by rewrite Hl.
Qed.


End UpdateFacts.

(** A database for the examples: the number of DONE tasks of the template
    [hello-world] resolved by the group [ops]. *)
Definition sample_counts (done : nat) : stateCounts nat * option error :=
  ({[ "ops" := {[ "hello-world" := {[ "DONE" := done ]} ]} ]}, None).

Definition no_gauge : exporter nat := {| gauges := ∅; warnings := [] |}.



(** Two ticks refresh the gauge; a tick after the cancellation does not. *)
Example collector_example :
  gauges (exported
    (collector_run nat nat sample_counts canonicalRange
       (collectMetrics nat nat sample_counts canonicalRange (inr 1) no_gauge)
       [TickC 2; TickC 5; CtxDone; TickC 9]))
    !! ["DONE"; "hello-world"; "ops"] = Some 5.
Proof. vm_compute. reflexivity. Qed.

End MetricsFacts.

(** ** Authorisation, continued *)
Module AuthMore.
Import Auth AuthFacts.

(** X1: [auth.Init] fails when the configuration cannot be read or names
    neither an admin user nor an admin group, and then leaves the admin
    lists as they were; when it succeeds the admins are those of the
    configuration, so that [IsAdmin] accepts exactly their names and the
    members of their groups. *)
Theorem auth_Init_sets_admins (NA Store : Type) (utask_Config : Store → error + Cfg NA)
    (store : Store) (a : admins) :
  ((Init NA Store utask_Config store a).2 = None ↔
     ∃ cfg, utask_Config store = inr cfg
            ∧ (AdminUsernames cfg ≠ [] ∨ AdminGroups cfg ≠ []))
  ∧ ((Init NA Store utask_Config store a).2 ≠ None →
     (Init NA Store utask_Config store a).1 = a)
  ∧ (∀ cfg, utask_Config store = inr cfg →
       (Init NA Store utask_Config store a).2 = None →
       ∀ ctx, IsAdmin (Init NA Store utask_Config store a).1 ctx = None ↔
              GetIdentity ctx ∈ AdminUsernames cfg
              ∨ ∃ g, g ∈ AdminGroups cfg ∧ g ∈ GetGroups ctx).
Proof.
  unfold Init. destruct (utask_Config store) as [err|cfg].
  - split_and!; [|done|done]. split; [done|]. by intros (? & ? & _).
  - destruct (AdminUsernames cfg) as [|u us] eqn:Hu;
      destruct (AdminGroups cfg) as [|g gs] eqn:Hg; simpl.
    + split_and!; [|done|done]. split; [done|].
      intros (cfg' & [= <-] & [H|H]); congruence.
    + split_and!; [|done|].
      * split; [intros _|done]. exists cfg. split; [done|]. right. by rewrite Hg.
      * intros cfg' [= <-] _ ctx. rewrite IsAdmin_None. unfold is_admin. simpl.
        by rewrite Hu, Hg.
    + split_and!; [|done|].
      * split; [intros _|done]. exists cfg. split; [done|]. left. by rewrite Hu.
      * intros cfg' [= <-] _ ctx. rewrite IsAdmin_None. unfold is_admin. simpl.
        by rewrite Hu, Hg.
    + split_and!; [|done|].
      * split; [intros _|done]. exists cfg. split; [done|]. left. by rewrite Hu.
      * intros cfg' [= <-] _ ctx. rewrite IsAdmin_None. unfold is_admin. simpl.
        by rewrite Hu, Hg.
Qed.

Definition admin_cfg : Cfg unit :=
  {| NotifyConfig := ∅; NotifyActions := ();
     AdminUsernames := ["root"]; AdminGroups := ["ops"] |}.

Lemma auth_Init_sets_admins_witness :
  IsAdmin (Init unit (Cfg unit) (fun s => inr s) admin_cfg
             {| adminUsers := []; adminGroups := [] |}).1
    (WithGroups Background ["dev"; "ops"]) = None.
Proof.
  destruct (auth_Init_sets_admins unit (Cfg unit) (fun s => inr s) admin_cfg
              {| adminUsers := []; adminGroups := [] |}) as (_ & _ & H).
  apply (H admin_cfg); [reflexivity|reflexivity|].
  right. exists "ops". split; [by left|]. simpl. right. by left.
Defined.

(** X2: [IsAdmin] returns [nil] exactly for an admin username or a member
    of an admin group, and the Forbidden error "Not an admin user" for
    everyone else.  A context that carries neither identity nor groups stands
    for the user with the empty name: it is an admin only if the empty name is
    listed. *)
Theorem IsAdmin_decides (a : admins) (ctx : Context) :
  (IsAdmin a ctx = None ↔ is_admin a ctx)
  ∧ (¬ is_admin a ctx → IsAdmin a ctx = Some (errors_Forbiddenf "Not an admin user" []))
  ∧ (IsAdmin a Background = None ↔ EmptyString ∈ adminUsers a).
Proof.
  split_and!.
  - apply IsAdmin_None.
  - intros Hna. destruct (IsAdmin a ctx) as [e|] eqn:H.
    + by rewrite (IsAdmin_Some _ _ _ H).
    + by apply IsAdmin_None in H.
  - rewrite IsAdmin_None. unfold is_admin. simpl. split; [|by left].
    intros [H|(g & _ & H)]; [done|]. by apply elem_of_nil in H.
Qed.

Lemma IsAdmin_decides_witness :
  IsAdmin {| adminUsers := ["root"]; adminGroups := [] |} (WithIdentity Background "bob")
  = Some (errors_Forbiddenf "Not an admin user" []).
Proof.
  apply (IsAdmin_decides {| adminUsers := ["root"]; adminGroups := [] |}
           (WithIdentity Background "bob")).
  intros [H|(g & H & _)].
  - simpl in H. apply elem_of_cons in H as [H|H]; [discriminate|].
    exact (proj1 (elem_of_nil _) H).
  - simpl in H. exact (proj1 (elem_of_nil _) H).
Defined.

(** X3: the two task roles.  [IsRequester] returns [nil] exactly when the
    identity of the caller is the requester of the task; [IsWatcher] exactly
    when it is one of the watchers or the caller shares a group with the
    watcher groups.  Both return a Forbidden error otherwise. *)
Theorem task_roles (ctx : Context) (t : Task) :
  (IsRequester ctx t = None ↔ RequesterUsername t = GetIdentity ctx)
  ∧ (IsWatcher ctx t = None ↔
       GetIdentity ctx ∈ WatcherUsernames t
       ∨ ∃ g, g ∈ WatcherGroups t ∧ g ∈ GetGroups ctx)
  ∧ (∀ e, IsRequester ctx t = Some e ∨ IsWatcher ctx t = Some e → kind_of e = KForbidden).
Proof.
  split_and!.
  - unfold IsRequester.
    destruct (String.eqb_spec (RequesterUsername t) (GetIdentity ctx)); simpl; split; done.
  - unfold IsWatcher. destruct (ListContainsString _ _) eqn:Hu.
    + apply ListContainsString_true in Hu. tauto.
    + destruct (HasIntersection _ _) eqn:Hg.
      * apply HasIntersection_true in Hg. tauto.
      * split; [done|]. intros [H|H].
        -- apply ListContainsString_true in H. congruence.
        -- apply HasIntersection_true in H. congruence.
  - intros e [H|H].
    + unfold IsRequester in H. destruct (negb _); [|done]. by injection H as <-.
    + unfold IsWatcher in H. destruct (ListContainsString _ _); [done|].
      destruct (HasIntersection _ _); [done|]. by injection H as <-.
Qed.

(** X4: [IsTemplateOwner] returns [nil] exactly for the allowed resolvers of
    the template, by username or by group.  Without a template it returns
    the error "nil tasktemplate", which is not a Forbidden error; with one,
    everyone else gets a Forbidden error. *)
Theorem IsTemplateOwner_decides (ctx : Context) (tt : option TaskTemplate) :
  (IsTemplateOwner ctx tt = None ↔ template_owner ctx tt)
  ∧ (tt = None → IsTemplateOwner ctx tt = Some (errors_New "nil tasktemplate"))
  ∧ (∀ tt0, tt = Some tt0 → ¬ template_owner ctx tt →
       IsTemplateOwner ctx tt
       = Some (errors_Forbiddenf "User not authorized on this resolution" [])).
Proof.
  split_and!.
  - apply IsTemplateOwner_None.
  - by intros ->.
  - intros tt0 -> Hno.
    destruct (IsTemplateOwner ctx (Some tt0)) as [e|] eqn:H.
    + unfold IsTemplateOwner in H. destruct (ListContainsString _ _); [done|].
      destruct (HasIntersection _ _); [done|]. done.
    + by apply IsTemplateOwner_None in H.
Qed.

Lemma IsTemplateOwner_decides_witness :
  IsTemplateOwner (WithIdentity Background "bob") (Some alice_template)
  = Some (errors_Forbiddenf "User not authorized on this resolution" []).
Proof.
  destruct (IsTemplateOwner_decides (WithIdentity Background "bob") (Some alice_template))
    as (_ & _ & Hforbidden).
  apply (Hforbidden alice_template); [reflexivity|].
  intros (tt0 & [= <-] & [H|(g & H & _)]).
  - simpl in H. apply elem_of_cons in H as [H|H]; [discriminate|].
    exact (proj1 (elem_of_nil _) H).
  - simpl in H. exact (proj1 (elem_of_nil _) H).
Defined.

Lemma task_roles_witness :
  IsRequester (WithIdentity Background "bob") plain_task = None.
Proof.
  apply (task_roles (WithIdentity Background "bob") plain_task). reflexivity.
Defined.

End AuthMore.

(** ** Validation and registration of the backends, continued *)
Module NotifyInitMore.
Import Notify NotifyInit GoFacts NotifyInitFacts.

Lemma filled_id ncfg action d s :
  DefaultNotificationStrategy ncfg = Some d → d !! action = Some s →
  filled ncfg action = ncfg.
Proof.
  intros Hd Hs. unfold filled, default_map, with_default. rewrite Hd, Hs.
  destruct ncfg; simpl in *. by rewrite Hd.
Qed.

Lemma normalize_actions_fixed R acts ncfg d :
  DefaultNotificationStrategy ncfg = Some d →
  (∀ a, a ∈ acts → is_Some (d !! a)) →
  (normalize_actions R acts ncfg).2 = None →
  (normalize_actions R acts ncfg).1 = ncfg.
Proof.
  intros Hd. induction acts as [|action acts IH]; intros Hall Hok; [done|].
  destruct (Hall action) as [s Hs]; [by left|].
  rewrite normalize_actions_cons in Hok |- *.
  rewrite (filled_id ncfg action d s Hd Hs) in Hok |- *.
  destruct (validateStrategyForAction _ _) as [[]|]; [done|done|].
  destruct (check_template_strategies _); [done|].
  apply IH; [|done]. intros a Ha. apply Hall. by right.
Qed.

Lemma validate_result R ncfg ncfg' :
  validateAndNormalizeNotificationStrategy R ncfg = (ncfg', None) →
  well_configured ncfg
  ∧ ncfg' = (normalize_actions R [TaskValidationKey; TaskStateUpdateKey; TaskStepUpdateKey]
               ncfg).1
  ∧ (normalize_actions R [TaskValidationKey; TaskStateUpdateKey; TaskStepUpdateKey]
       ncfg).2 = None.
Proof.
  intros Hv. split.
  - apply (validate_ok_iff R). by rewrite Hv.
  - unfold validateAndNormalizeNotificationStrategy in Hv.
    destruct (check_default_actions _); [done|]. by rewrite Hv.
Qed.

(** X5: validation is idempotent: a configuration returned without error by
    [validateAndNormalizeNotificationStrategy] is accepted again and returned
    as it is. *)
Theorem validate_idempotent (R : MapRange) (ncfg ncfg' : NotifyBackend) :
  validateAndNormalizeNotificationStrategy R ncfg = (ncfg', None) →
  validateAndNormalizeNotificationStrategy R ncfg' = (ncfg', None).
Proof.
  intros Hv. destruct (validate_result R ncfg ncfg' Hv) as ([Hdef Htns] & Heq & Hok).
  pose proof (normalize_actions_Some R TaskValidationKey
                [TaskStateUpdateKey; TaskStepUpdateKey] ncfg) as [d' Hd'].
  rewrite <- Heq in Hd'.
  pose proof (normalize_actions_fields R
                [TaskValidationKey; TaskStateUpdateKey; TaskStepUpdateKey] ncfg)
    as (Htn & _ & _).
  rewrite <- Heq in Htn.
  assert (∀ a, default_map ncfg' !! a =
               if decide (a ∈ [TaskValidationKey; TaskStateUpdateKey; TaskStepUpdateKey])
               then Some (effective ncfg a) else default_map ncfg !! a) as Hmap.
  { intros a. rewrite Heq. by apply normalize_actions_map. }
  assert (well_configured ncfg') as Hwc.
  { split.
    - intros a s Hs. rewrite Hmap in Hs. case_decide as Hin.
      + injection Hs as <-. split.
        * unfold valid_action, TaskValidationKey, TaskStateUpdateKey, TaskStepUpdateKey in *.
          rewrite !elem_of_cons in Hin. destruct Hin as [?|[?|[?|Hnil]]]; auto.
          by apply elem_of_nil in Hnil.
        * by apply (proj1 (normalize_actions_ok R _ ncfg) Hok).
      + by apply Hdef.
    - rewrite Htn. exact Htns. }
  apply (validate_ok_iff R) in Hwc.
  unfold validateAndNormalizeNotificationStrategy in *.
  destruct (check_default_actions (range R (default_map ncfg'))); [done|].
  destruct (normalize_actions R _ ncfg') as [n2 e2] eqn:Hn. simpl in Hwc. subst e2.
  f_equal.
  change n2 with (n2, @None error).1. rewrite <- Hn.
  apply (normalize_actions_fixed R _ ncfg' d' Hd').
  - intros a Ha. specialize (Hmap a). rewrite decide_True in Hmap by done.
    unfold default_map in Hmap. rewrite Hd' in Hmap. rewrite Hmap. by eexists.
  - by rewrite Hn.
Qed.

Lemma validate_idempotent_witness :
  validateAndNormalizeNotificationStrategy canonicalRange
    (validateAndNormalizeNotificationStrategy canonicalRange accepted_backend).1
  = ((validateAndNormalizeNotificationStrategy canonicalRange accepted_backend).1, None).
Proof.
  apply (validate_idempotent canonicalRange accepted_backend). vm_compute. reflexivity.
Defined.

(** X6: [validateAndNormalizeNotificationStrategy] never changes the type,
    the transport settings or the per-template strategies of a backend,
    whether it fails or not.  When it succeeds, every entry of the default
    map it was given is kept and the keys of the default map it returns are
    exactly the three action names. *)
Theorem validate_preserves (R : MapRange) (ncfg : NotifyBackend) :
  let result := validateAndNormalizeNotificationStrategy R ncfg in
  Type_ result.1 = Type_ ncfg
  ∧ Config result.1 = Config ncfg
  ∧ TemplateNotificationStrategies result.1 = TemplateNotificationStrategies ncfg
  ∧ (result.2 = None →
     (∀ a s, default_map ncfg !! a = Some s → default_map result.1 !! a = Some s)
     ∧ (∀ a, is_Some (default_map result.1 !! a) ↔ valid_action a)).
Proof.
  intros result.
  assert (Type_ result.1 = Type_ ncfg ∧ Config result.1 = Config ncfg
          ∧ TemplateNotificationStrategies result.1 = TemplateNotificationStrategies ncfg)
    as (Ht & Hc & Htn).
  { subst result. unfold validateAndNormalizeNotificationStrategy.
    destruct (check_default_actions _); [done|].
    pose proof (normalize_actions_fields R
                  [TaskValidationKey; TaskStateUpdateKey; TaskStepUpdateKey] ncfg)
      as (? & ? & ?). done. }
  split_and!; [done|done|done|]. intros Hok.
  destruct result as [ncfg' e] eqn:Hres. simpl in Hok. subst e.
  destruct (validate_result R ncfg ncfg' Hres) as ([Hdef _] & Heq & Hn).
  assert (∀ a, default_map ncfg' !! a =
               if decide (a ∈ [TaskValidationKey; TaskStateUpdateKey; TaskStepUpdateKey])
               then Some (effective ncfg a) else default_map ncfg !! a) as Hmap.
  { intros a. rewrite Heq. by apply normalize_actions_map. }
  assert (∀ a, a ∈ [TaskValidationKey; TaskStateUpdateKey; TaskStepUpdateKey]
               ↔ valid_action a) as Hacts.
  { intros a. unfold valid_action, TaskValidationKey, TaskStateUpdateKey, TaskStepUpdateKey.
    rewrite !elem_of_cons. split; [|tauto].
    intros [?|[?|[?|Hnil]]]; auto. by apply elem_of_nil in Hnil. }
  simpl. split.
  - intros a s Hs. rewrite Hmap. case_decide; [|done].
    unfold effective. by rewrite Hs.
  - intros a. rewrite Hmap. case_decide as Hin.
    + split; [intros _; by apply Hacts|by eexists].
    + split; [intros [s Hs]; by apply (Hdef a s)|]. intros Hva. by apply Hacts in Hva.
Qed.

Lemma validate_preserves_witness :
  (∀ a s, default_map accepted_backend !! a = Some s →
     default_map (validateAndNormalizeNotificationStrategy canonicalRange
                    accepted_backend).1 !! a = Some s)
  ∧ (∀ a, is_Some (default_map (validateAndNormalizeNotificationStrategy canonicalRange
                                  accepted_backend).1 !! a) ↔ valid_action a).
Proof.
  apply (validate_preserves canonicalRange accepted_backend). vm_compute. reflexivity.
Defined.

Section InitMore.
Variables Sender NA Store : Type.
Variable utask_Config : Store → error + Cfg NA.
Variables opsgenie_case slack_case webhook_case : Store → string → NotifyBackend → error + Sender.

Local Abbreviation init_backends :=
  (init_backends Sender NA Store opsgenie_case slack_case webhook_case).
Local Abbreviation Init :=
  (Init Sender NA Store utask_Config opsgenie_case slack_case webhook_case).

(** The configuration of a backend as [Init] keeps it: the configured one,
    with the default map returned by the validation. *)
Definition saved (R : MapRange) (ncfg : NotifyBackend) : NotifyBackend :=
  {| Type_ := Type_ ncfg;
     DefaultNotificationStrategy :=
       DefaultNotificationStrategy (validateAndNormalizeNotificationStrategy R ncfg).1;
     TemplateNotificationStrategies := TemplateNotificationStrategies ncfg;
     Config := Config ncfg |}.

(** The sender [s] was built by the case of the [switch] for the type of
    [ncfg]. *)
Definition built_by (store : Store) (name : string) (ncfg : NotifyBackend) (s : Sender)
    : Prop :=
  (Type_ ncfg = opsgenie_Type ∧ opsgenie_case store name ncfg = inr s)
  ∨ (Type_ ncfg = slack_Type ∧ slack_case store name ncfg = inr s)
  ∨ (Type_ ncfg = webhook_Type ∧ webhook_case store name ncfg = inr s).

(** The backend registered for [ncfg] with the sender [s]. *)
Definition registered (R : MapRange) (ncfg : NotifyBackend) (s : Sender)
    : notificationBackend Sender :=
  {| sender := s;
     defaultNotificationStrategy := DefaultNotificationStrategy (saved R ncfg);
     templateNotificationStrategies := TemplateNotificationStrategies ncfg |}.

Lemma init_backends_step R store name ncfg l g :
  init_backends R store ((name, ncfg) :: l) g =
  match (validateAndNormalizeNotificationStrategy R ncfg).2 with
  | Some err => (g, Some err)
  | None =>
      let register (r : error + Sender) :=
        match r with
        | inl err => (g, Some err)
        | inr s =>
            init_backends R store l
              (RegisterSender name s (DefaultNotificationStrategy (saved R ncfg))
                 (TemplateNotificationStrategies ncfg) g)
        end in
      if String.eqb (Type_ ncfg) opsgenie_Type
      then register (opsgenie_case store name (saved R ncfg))
      else if String.eqb (Type_ ncfg) slack_Type
      then register (slack_case store name (saved R ncfg))
      else if String.eqb (Type_ ncfg) webhook_Type
      then register (webhook_case store name (saved R ncfg))
      else (g, Some (fmt_Errorf "failed to identify backend type: %s" [AStr (Type_ ncfg)]))
  end.
Proof.
  simpl. unfold saved.
  destruct (validateAndNormalizeNotificationStrategy R ncfg) as [newncfg [err|]]; done.
Qed.

Lemma init_backends_registers R store l g g' :
  NoDup l.*1 →
  init_backends R store l g = (g', None) →
  (∀ name ncfg, (name, ncfg) ∈ l →
     ∃ s, built_by store name (saved R ncfg) s
          ∧ senders g' !! name = Some (registered R ncfg s))
  ∧ (∀ n, n ∉ l.*1 → senders g' !! n = senders g !! n)
  ∧ actions g' = actions g.
Proof.
  revert g. induction l as [|[name ncfg] l IH]; intros g Hnd Hinit.
  - simpl in Hinit. injection Hinit as <-. split_and!; [|done|done].
    intros ? ? H. by apply elem_of_nil in H.
  - simpl in Hnd. apply NoDup_cons in Hnd as [Hfresh Hnd].
    rewrite init_backends_step in Hinit.
    destruct (validateAndNormalizeNotificationStrategy R ncfg).2; [done|].
    assert (∀ s, built_by store name (saved R ncfg) s →
              init_backends R store l
                (RegisterSender name s (DefaultNotificationStrategy (saved R ncfg))
                   (TemplateNotificationStrategies ncfg) g) = (g', None) →
              (∀ name0 ncfg0, (name0, ncfg0) ∈ (name, ncfg) :: l →
                 ∃ s0, built_by store name0 (saved R ncfg0) s0
                       ∧ senders g' !! name0 = Some (registered R ncfg0 s0))
              ∧ (∀ n, n ∉ ((name, ncfg) :: l).*1 → senders g' !! n = senders g !! n)
              ∧ actions g' = actions g) as Hstep.
    { intros s Hbuilt Hrest.
      destruct (IH _ Hnd Hrest) as (Hall & Hother & Hact). split_and!.
      - intros name0 ncfg0 [Heq|Hin]%elem_of_cons; [|by apply Hall].
        injection Heq as -> ->. exists s. split; [done|].
        rewrite (Hother name Hfresh). simpl. apply lookup_insert_eq.
      - intros n Hn. simpl in Hn. apply not_elem_of_cons in Hn as [Hne Hn].
        rewrite (Hother n Hn). simpl. by apply lookup_insert_ne.
      - by rewrite Hact. }
    simpl in Hinit.
    destruct (String.eqb_spec (Type_ ncfg) opsgenie_Type) as [Hty|_].
    { destruct (opsgenie_case store name (saved R ncfg)) as [err|s] eqn:Hc; [done|].
      apply (Hstep s); [|done]. left. done. }
    destruct (String.eqb_spec (Type_ ncfg) slack_Type) as [Hty|_].
    { destruct (slack_case store name (saved R ncfg)) as [err|s] eqn:Hc; [done|].
      apply (Hstep s); [|done]. right; left. done. }
    destruct (String.eqb_spec (Type_ ncfg) webhook_Type) as [Hty|_]; [|done].
    destruct (webhook_case store name (saved R ncfg)) as [err|s] eqn:Hc; [done|].
    apply (Hstep s); [|done]. right; right. done.
Qed.

Lemma init_backends_grows R store l g :
  actions (init_backends R store l g).1 = actions g
  ∧ ∀ n, is_Some (senders g !! n) → is_Some (senders (init_backends R store l g).1 !! n).
Proof.
  revert g. induction l as [|[name ncfg] l IH]; intros g; [done|].
  rewrite init_backends_step.
  destruct (validateAndNormalizeNotificationStrategy R ncfg).2; [done|].
  assert (∀ s,
    actions (init_backends R store l
               (RegisterSender name s (DefaultNotificationStrategy (saved R ncfg))
                  (TemplateNotificationStrategies ncfg) g)).1 = actions g
    ∧ ∀ n, is_Some (senders g !! n) →
           is_Some (senders (init_backends R store l
               (RegisterSender name s (DefaultNotificationStrategy (saved R ncfg))
                  (TemplateNotificationStrategies ncfg) g)).1 !! n)) as Hstep.
  { intros s. destruct (IH (RegisterSender name s
        (DefaultNotificationStrategy (saved R ncfg))
        (TemplateNotificationStrategies ncfg) g)) as [Ha Hs].
    split; [by rewrite Ha|]. intros n Hn. apply Hs. simpl.
    destruct (decide (name = n)) as [->|Hne].
    - rewrite lookup_insert_eq. by eexists.
    - by rewrite lookup_insert_ne. }
  simpl.
  destruct (String.eqb _ opsgenie_Type).
  { destruct (opsgenie_case _ _ _); [done|apply Hstep]. }
  destruct (String.eqb _ slack_Type).
  { destruct (slack_case _ _ _); [done|apply Hstep]. }
  destruct (String.eqb _ webhook_Type); [|done].
  destruct (webhook_case _ _ _); [done|apply Hstep].
Qed.

(** X7: when [Init] returns no error, every backend of the configuration
    is registered under its name, with the sender built by the case of its
    type (which is [opsgenie], [slack] or [webhook]), the default strategies
    returned by the validation and the per-template strategies as
    configured; the senders registered before under other names are kept, and
    the notify actions of the configuration are registered. *)
Theorem Init_registers_backends (R : MapRange) (store : Store) (g g' : registry Sender NA)
    (cfg : Cfg NA) :
  utask_Config store = inr cfg →
  Init R store g = (g', None) →
  (∀ name ncfg, NotifyConfig cfg !! name = Some ncfg →
     ∃ s, built_by store name (saved R ncfg) s
          ∧ senders g' !! name = Some (registered R ncfg s))
  ∧ (∀ n, NotifyConfig cfg !! n = None → senders g' !! n = senders g !! n)
  ∧ actions g' = Some (NotifyActions cfg).
Proof.
  intros Hcfg Hinit. unfold NotifyInit.Init in Hinit. rewrite Hcfg in Hinit.
  destruct (init_backends R store _ g) as [g1 [err|]] eqn:Hl; [done|].
  injection Hinit as <-.
  destruct (init_backends_registers R store _ g g1 (range_NoDup_keys R _) Hl)
    as (Hall & Hother & Hact).
  split_and!.
  - intros name ncfg Hin%(range_lookup R). by apply Hall.
  - intros n Hn. simpl. apply Hother. intros Hin.
    apply list_elem_of_fmap in Hin as ([n' ncfg] & -> & Hin%range_lookup).
    simpl in Hn. congruence.
  - done.
Qed.

(** X8: when [Init] returns an error, the notify actions are left as they
    were.  Whether it fails or not, no sender registered before the call is
    removed. *)
Theorem Init_keeps_registry (R : MapRange) (store : Store) (g : registry Sender NA) :
  ((Init R store g).2 ≠ None → actions (Init R store g).1 = actions g)
  ∧ (∀ n, is_Some (senders g !! n) → is_Some (senders (Init R store g).1 !! n)).
Proof.
  unfold NotifyInit.Init. destruct (utask_Config store) as [err|cfg]; [done|].
  destruct (init_backends_grows R store (range R (NotifyConfig cfg)) g) as [Ha Hs].
  destruct (init_backends R store _ g) as [g1 [err|]]; simpl in *.
  - split; [done|]. exact Hs.
  - split; [done|]. exact Hs.
Qed.

End InitMore.

Lemma Init_registers_backends_witness :
  ∃ s, senders (Init string unit (Cfg unit) sample_Config sample_case sample_case
                  sample_case canonicalRange (sample_store accepted_backend)
                  (empty_registry string unit)).1 !! "ops"
       = Some (registered string canonicalRange accepted_backend s).
Proof.
  destruct (Init_registers_backends string unit (Cfg unit) sample_Config sample_case
              sample_case sample_case canonicalRange (sample_store accepted_backend)
              (empty_registry string unit)
              (Init string unit (Cfg unit) sample_Config sample_case sample_case
                 sample_case canonicalRange (sample_store accepted_backend)
                 (empty_registry string unit)).1
              (sample_store accepted_backend)) as (Hall & _ & _).
  - reflexivity.
  - vm_compute. reflexivity.
  - destruct (Hall "ops" accepted_backend) as (s & _ & Hs).
    + vm_compute. reflexivity.
    + by exists s.
Defined.

Lemma Init_keeps_registry_witness :
  actions (Init string unit (Cfg unit) sample_Config sample_case sample_case sample_case
             canonicalRange
             (sample_store (sample_backend (Some {[ "task_validation" := "failure_only" ]}) ∅))
             (empty_registry string unit)).1 = None.
Proof.
  apply (Init_keeps_registry string unit (Cfg unit) sample_Config sample_case sample_case
           sample_case canonicalRange
           (sample_store (sample_backend (Some {[ "task_validation" := "failure_only" ]}) ∅))
           (empty_registry string unit)).
  vm_compute. discriminate.
Defined.

End NotifyInitMore.

(** ** The registry of senders, continued *)
Module NotifyMore.
Import Notify GoFacts NotifyFacts.
Local Open Scope list_scope.

Section RegistryMore.
Variables Sender Message NA : Type.
Variable checkIfDeliverMessage : Message → notificationBackend Sender → bool.

Lemma names_of_spec (l : list (string * notificationBackend Sender)) names :
  names_of Sender l names = names ++ l.*1.
Proof.
  revert names. induction l as [|[name b] l IH]; intros names; simpl.
  - by rewrite app_nil_r.
  - rewrite IH. by rewrite <- app_assoc.
Qed.

(** X9: [ListSendersNames] lists every registered name once.  After
    [RegisterSender] the name is bound to the new backend, replacing a sender
    registered before under the same name, every other name is bound as
    before, and the names listed are the former ones and the new one. *)
Theorem registered_names (R : MapRange) (g : registry Sender NA) (name : string)
    (s : Sender) (dns : option (gmap string string))
    (tns : gmap string (list TemplateNotificationStrategy)) :
  NoDup (ListSendersNames Sender NA R g)
  ∧ (∀ n, n ∈ ListSendersNames Sender NA R g ↔ is_Some (senders g !! n))
  ∧ senders (RegisterSender name s dns tns g) !! name
    = Some {| sender := s; defaultNotificationStrategy := dns;
              templateNotificationStrategies := tns |}
  ∧ (∀ n, n ≠ name → senders (RegisterSender name s dns tns g) !! n = senders g !! n)
  ∧ (∀ n, n ∈ ListSendersNames Sender NA R (RegisterSender name s dns tns g) ↔
          n = name ∨ n ∈ ListSendersNames Sender NA R g).
Proof.
  assert (∀ g0 : registry Sender NA, ∀ n,
            n ∈ ListSendersNames Sender NA R g0 ↔ is_Some (senders g0 !! n)) as Hmem.
  { intros g0 n. unfold ListSendersNames. rewrite names_of_spec. simpl.
    rewrite list_elem_of_fmap. split.
    - intros ([n' b] & -> & Hin%range_lookup). by eexists.
    - intros [b Hb]. exists (n, b). split; [done|]. by apply range_lookup. }
  split_and!.
  - unfold ListSendersNames. rewrite names_of_spec. simpl. apply range_NoDup_keys.
  - apply Hmem.
  - simpl. apply lookup_insert_eq.
  - intros n Hne. simpl. by apply lookup_insert_ne.
  - intros n. rewrite !Hmem. simpl. destruct (decide (n = name)) as [->|Hne].
    + rewrite lookup_insert_eq. split; [by left|by eexists].
    + rewrite lookup_insert_ne by done. split; [by right|]. by intros [?|?].
Qed.







End RegistryMore.

Lemma registered_names_witness :
  "slack" ∈ ListSendersNames string unit canonicalRange two_senders.
Proof.
  apply (registered_names string unit canonicalRange
           (RegisterSender "ops" "ops-sender" None ∅ (empty_registry string unit))
           "slack" "slack-sender" None ∅).
  by left.
Defined.


(** The sender registered as [ops] is handed the message twice. *)
Example Send_twice :
  launch_name <$>
    Send (fun (_ : string) (_ : notificationBackend string) => true) canonicalRange
      two_senders "hello" {| Disabled := false; NotifyBackends := ["ops"; "nobody"; "ops"] |}
  = ["ops"; "ops"].
Proof. vm_compute. reflexivity. Qed.

End NotifyMore.

(** ** Task creation, continued *)
Module TaskUtilsMore.
Import Auth AuthFacts TaskUtils TaskUtilsFacts.



Section CreateTaskMore.
Variables W Input Batch Duration Time : Type.
Variable task_Create :
  W → TaskTemplate → string → list string → list string → list string →
  list string → list string → Input → option (gmap string string) →
  option Batch → bool → W * (error + Task).
Variable task_CreateComment : W → Task → string → string → W * (error + Comment).
Variable NotifyValidationRequired : W → Task → TaskTemplate → W.
Variable IsAutoRunnable : TaskTemplate → bool.
Variable time_ParseDuration : string → error + Duration.
Variable time_Now_Add : W → Duration → Time.
Variable resolution_Create :
  W → Task → string → bool → option Time → W * (error + option Resolution_).

Variables (a : admins) (c : Context) (w : W) (tt : TaskTemplate).
Variables watcherUsernames watcherGroups resolverUsernames resolverGroups : list string.
Variables (input : Input) (b : option Batch) (comment : string) (delay : option string).
Variable tags : option (gmap string string).

Local Abbreviation call :=
  (CreateTask W Input Batch Duration Time task_Create task_CreateComment
     NotifyValidationRequired IsAutoRunnable time_ParseDuration time_Now_Add
     resolution_Create a c w tt watcherUsernames watcherGroups resolverUsernames
     resolverGroups input b comment delay tags).

(** The call [CreateTask] makes to [task.Create]. *)
Definition creation : W * (error + Task) :=
  task_Create w tt (GetIdentity c) (GetGroups c) watcherUsernames watcherGroups
    resolverUsernames resolverGroups input tags b
    (match delay with Some _ => true | None => false end).





(** X11: when the template is not blocked, an error of [task.Create] is
    returned as it is and nothing else is done; an error of
    [task.CreateComment] is returned as it is, the task staying created and
    nothing else being done. *)
Theorem CreateTask_creation_errors (w1 w2 : W) (t : Task) (err : error) :
  Blocked tt = false →
  (creation = (w1, inl err) → call = (w1, inl err))
  ∧ (creation = (w1, inr t) → comment ≠ EmptyString →
     task_CreateComment w1 t (GetIdentity c) comment = (w2, inl err) →
     call = (w2, inl err)).
Proof.
  intros Hb. unfold CreateTask, creation. rewrite Hb. split.
  - by intros ->.
  - intros -> Hne%String.eqb_neq Hcc. rewrite Hne. simpl. by rewrite Hcc.
Qed.





End CreateTaskMore.

(** Calls for the examples, in the world of [sample_world]: the parser of
    durations knows "1h" only, and comments may be refused. *)
Definition sample_ParseDuration (d : string) : error + Z :=
  if String.eqb d "1h" then inr 3600%Z else inl (errors_New "time: invalid duration").

Definition refused_comment (w : sample_world) (t : Task) (user content : string)
    : sample_world * (error + Comment) :=
  (w, inl (errors_New "comment refused")).

Definition sample_call (create_comment :
                          sample_world → Task → string → string →
                          sample_world * (error + Comment))
    (tt : TaskTemplate) (c : Context) (comment : string) (delay : option string)
    : sample_world * (error + Task) :=
  CreateTask sample_world unit unit Z Z sample_task_Create create_comment
    (fun w _ _ => (w.1, "validation-required" :: w.2)) AutoRunnable sample_ParseDuration
    (fun _ d => d) sample_resolution_Create
    {| adminUsers := ["root"]; adminGroups := [] |} c ([], []) tt
    [] [] [] [] () None comment delay None.


Lemma CreateTask_creation_errors_witness :
  sample_call refused_comment alice_template alice "please" None
  = ((["task-of-hello-world"], []), inl (errors_New "comment refused")).
Proof.
  unfold sample_call.
  eapply (CreateTask_creation_errors sample_world unit unit Z Z sample_task_Create
            refused_comment).
  - reflexivity.
  - reflexivity.
  - discriminate.
  - reflexivity.
Defined.






Section ShouldResumeMore.
Variable DB : Type.
Variable SubtaskTagParentTaskID : string.
Variable batchutils_RunningTasks : DB → Z → error + Z.
Variable task_LoadFromPublicID : DB → string → error + Task.
Variable resolution_LoadFromPublicID : DB → string → error + Resolution_.

Local Abbreviation ShouldResume :=
  (ShouldResumeParentTask DB SubtaskTagParentTaskID batchutils_RunningTasks
     task_LoadFromPublicID resolution_LoadFromPublicID).

Definition finished (t : Task) : Prop :=
  TaskState t = "DONE" ∨ TaskState t = "WONTFIX" ∨ TaskState t = "CANCELLED".

Definition resumable (parentTask : Task) : Prop :=
  TaskState parentTask = "BLOCKED" ∨ TaskState parentTask = "RUNNING"
  ∨ TaskState parentTask = "WAITING".

Lemma finished_state_true t : finished_state (TaskState t) = true ↔ finished t.
Proof.
  unfold finished_state, finished, task_StateDone, task_StateWontfix, task_StateCancelled.
  rewrite !orb_true_iff, !String.eqb_eq. tauto.
Qed.

Lemma resumable_parent_state_true t :
  resumable_parent_state (TaskState t) = true ↔ resumable t.
Proof.
  unfold resumable_parent_state, resumable, task_StateBlocked, task_StateRunning,
    task_StateWaiting.
  rewrite !orb_true_iff, !String.eqb_eq. tauto.
Qed.

(** The parent named by [parentTaskID] can be resumed: it is loaded, it is
    blocked, running or waiting, and its resolution is loaded and is neither
    crashed nor paused. *)
Definition parent_ready (dbp : DB) (parentTaskID : string) (parentTask : Task) : Prop :=
  task_LoadFromPublicID dbp parentTaskID = inr parentTask
  ∧ resumable parentTask
  ∧ ∃ rid r, Resolution parentTask = Some rid
             ∧ resolution_LoadFromPublicID dbp rid = inr r
             ∧ ResolutionState r ≠ "CRASHED" ∧ ResolutionState r ≠ "PAUSED".

Lemma load_parent_Some dbp parentTaskID parentTask :
  (load_parent DB task_LoadFromPublicID resolution_LoadFromPublicID dbp parentTaskID).1
    = Some parentTask
  ↔ parent_ready dbp parentTaskID parentTask.
Proof.
  unfold load_parent, parent_ready.
  destruct (task_LoadFromPublicID dbp parentTaskID) as [err|p].
  { simpl. split; [done|]. by intros [? _]. }
  pose proof (resumable_parent_state_true p) as Hres.
  destruct (resumable_parent_state (TaskState p)); simpl.
  - destruct (Resolution p) as [rid|] eqn:Hrid.
    + destruct (resolution_LoadFromPublicID dbp rid) as [err|r] eqn:Hload.
      { simpl. split; [done|]. intros ([= <-] & _ & rid' & r' & Hr & Hl & _).
        rewrite Hrid in Hr. injection Hr as <-. congruence. }
      unfold resolution_StateCrashed, resolution_StatePaused.
      destruct (String.eqb_spec (ResolutionState r) "CRASHED") as [Hc|Hc]; simpl.
      { split; [done|]. intros ([= <-] & _ & rid' & r' & Hr & Hl & Hnc & _).
        rewrite Hrid in Hr. injection Hr as <-. congruence. }
      destruct (String.eqb_spec (ResolutionState r) "PAUSED") as [Hp|Hp]; simpl.
      { split; [done|]. intros ([= <-] & _ & rid' & r' & Hr & Hl & _ & Hnp).
        rewrite Hrid in Hr. injection Hr as <-. congruence. }
      split.
      * intros [= <-]. split_and!; [done|by apply Hres|]. exists rid, r. done.
      * by intros ([= <-] & _).
    + simpl. split; [done|]. intros ([= <-] & _ & rid' & r' & Hr & _).
      rewrite Hrid in Hr. done.
  - split; [done|]. intros ([= <-] & Hr & _). apply Hres in Hr. done.
Qed.

Lemma load_parent_exclusive dbp parentTaskID :
  (load_parent DB task_LoadFromPublicID resolution_LoadFromPublicID dbp parentTaskID).1
    = None
  ∨ (load_parent DB task_LoadFromPublicID resolution_LoadFromPublicID dbp parentTaskID).2
    = None.
Proof.
  unfold load_parent. destruct (task_LoadFromPublicID dbp parentTaskID); [by left|].
  destruct (negb _); [by left|]. destruct (Resolution _); [|by left].
  destruct (resolution_LoadFromPublicID dbp _); [by left|].
  destruct (_ || _); [by left|by right].
Qed.

(** X16: [ShouldResumeParentTask] returns a parent task exactly when the
    task is done, won't-fix or cancelled, carries the parent-task tag, has no
    running task left in its batch if it belongs to one, and the parent named
    by the tag is loaded, is blocked, running or waiting, and has a resolution
    that is loaded and is neither crashed nor paused.  A task without batch is
    not held back by [batchutils.RunningTasks]. *)
Theorem ShouldResume_parent_iff (dbp : DB) (t parentTask : Task) :
  (ShouldResume dbp t).1 = Some parentTask ↔
  finished t
  ∧ ∃ tags parentTaskID,
      Tags t = Some tags ∧ tags !! SubtaskTagParentTaskID = Some parentTaskID
      ∧ (∀ batchID, BatchID t = Some batchID →
           batchutils_RunningTasks dbp batchID = inr 0%Z)
      ∧ parent_ready dbp parentTaskID parentTask.
Proof.
  unfold ShouldResumeParentTask.
  pose proof (finished_state_true t) as Hfin.
  destruct (finished_state (TaskState t)); simpl.
  2:{ split; [done|]. intros [Hf _]. apply Hfin in Hf. done. }
  destruct (Tags t) as [tags|] eqn:Htags.
  2:{ simpl. split; [done|]. by intros (_ & ? & ? & ? & _). }
  destruct (tags !! SubtaskTagParentTaskID) as [pid|] eqn:Hpid.
  2:{ simpl. split; [done|]. intros (_ & tags' & pid' & [= <-] & Hp & _). congruence. }
  destruct (BatchID t) as [batchID|] eqn:Hb.
  - destruct (batchutils_RunningTasks dbp batchID) as [err|running] eqn:Hrun.
    { simpl. split; [done|]. intros (_ & tags' & pid' & _ & _ & Hz & _).
      specialize (Hz batchID eq_refl). congruence. }
    destruct (Z.eqb_spec running 0) as [->|Hne]; simpl.
    + rewrite load_parent_Some. split.
      * intros Hr. split; [by apply Hfin|]. exists tags, pid. split_and!; try done.
        by intros ? [= <-].
      * intros (_ & tags' & pid' & [= <-] & Hp & _ & Hr). congruence.
    + split; [done|]. intros (_ & tags' & pid' & _ & _ & Hz & _).
      specialize (Hz batchID eq_refl). congruence.
  - rewrite load_parent_Some. split.
    + intros Hr. split; [by apply Hfin|]. exists tags, pid. split_and!; try done.
    + intros (_ & tags' & pid' & [= <-] & Hp & _ & Hr). congruence.
Qed.

(** X17: [ShouldResumeParentTask] never returns both a parent task and an
    error.  For a task that is not finished, that has no tags or that lacks
    the parent-task tag it returns [(nil, nil)]. *)
Theorem ShouldResume_quiet (dbp : DB) (t : Task) :
  ((ShouldResume dbp t).1 = None ∨ (ShouldResume dbp t).2 = None)
  ∧ (¬ finished t ∨ Tags t = None
     ∨ (∃ tags, Tags t = Some tags ∧ tags !! SubtaskTagParentTaskID = None) →
     ShouldResume dbp t = (None, None)).
Proof.
  unfold ShouldResumeParentTask.
  pose proof (finished_state_true t) as Hfin. split.
  - destruct (finished_state (TaskState t)); [|by left]. simpl.
    destruct (Tags t) as [tags|]; [|by left].
    destruct (tags !! SubtaskTagParentTaskID) as [pid|]; [|by left].
    destruct (BatchID t) as [batchID|]; [|apply load_parent_exclusive].
    destruct (batchutils_RunningTasks dbp batchID); [by left|].
    destruct (negb _); [by left|apply load_parent_exclusive].
  - intros [Hnf|[Hnt|(tags & Ht & Hl)]].
    + destruct (finished_state (TaskState t)); [|done]. exfalso. by apply Hnf, Hfin.
    + destruct (finished_state (TaskState t)); [|done]. simpl. by rewrite Hnt.
    + destruct (finished_state (TaskState t)); [|done]. simpl. by rewrite Ht, Hl.
Qed.

End ShouldResumeMore.

Lemma ShouldResume_parent_iff_witness : (sample_ShouldResume 0).1 = Some sample_parent.
Proof.
  apply (ShouldResume_parent_iff Z "_utask_parent_task_id" (fun db _ => inr db)
           (fun _ id => if String.eqb id "parent" then inr sample_parent
                        else inl (errors_New "not found"))
           (fun _ id => inr {| ResolutionPublicID := id; ResolutionState := "WAITING";
                               ResolverUsername := "alice" |})
           0%Z sample_child sample_parent).
  split; [left; reflexivity|].
  exists {[ "_utask_parent_task_id" := "parent" ]}, "parent".
  split_and!.
  - reflexivity.
  - vm_compute. reflexivity.
  - intros batchID _. reflexivity.
  - split_and!; [reflexivity|right; right; reflexivity|].
    exists "res", {| ResolutionPublicID := "res"; ResolutionState := "WAITING";
                     ResolverUsername := "alice" |}.
    split_and!; [reflexivity|reflexivity|discriminate|discriminate].
Defined.

Lemma ShouldResume_quiet_witness :
  ShouldResumeParentTask Z "_utask_parent_task_id" (fun db _ => inr db)
    (fun _ _ => inl (errors_New "not found")) (fun _ _ => inl (errors_New "not found"))
    0%Z sample_parent
  = (None, None).
Proof.
  apply (ShouldResume_quiet Z "_utask_parent_task_id" (fun db _ => inr db)
           (fun _ _ => inl (errors_New "not found"))
           (fun _ _ => inl (errors_New "not found")) 0%Z sample_parent).
  right. left. reflexivity.
Defined.

End TaskUtilsMore.

(** ** The statistics endpoint, continued *)
Module StatsMore.
Import Api StatsFacts.

(** The byte [c] occurs in [s]. *)
Fixpoint has_byte (c : ascii) (s : string) : bool :=
  match s with
  | EmptyString => false
  | String b s' => Ascii.eqb c b || has_byte c s'
  end.

Lemma Split_equals_cons c s :
  Strings.Split (String c s) "=" =
  if Ascii.eqb "=" c then EmptyString :: Strings.Split s "="
  else match Strings.Split s "=" with
       | p :: ps => String c p :: ps
       | [] => [String c EmptyString]
       end.
Proof.
  unfold Strings.Split.
  assert (Strings.HasPrefix (String c s) "=" = Ascii.eqb "=" c) as Hp.
  { cbn -[Ascii.eqb]. destruct (Ascii.eqb "=" c); [by destruct s|done]. }
  cbn [Strings.split_from]. rewrite Hp. destruct (Ascii.eqb "=" c); reflexivity.
Qed.

Lemma Split_not_nil s : Strings.Split s "=" ≠ [].
Proof.
  induction s as [|c s IH]; [done|]. rewrite Split_equals_cons.
  destruct (Ascii.eqb "=" c); [done|]. by destruct (Strings.Split s "=").
Qed.

Lemma Split_without_equals s :
  has_byte "=" s = false → Strings.Split s "=" = [s].
Proof.
  induction s as [|c s IH]; [done|]. cbn [has_byte]. intros [Hc Hs]%orb_false_iff.
  rewrite Split_equals_cons, Hc, (IH Hs). done.
Qed.

Lemma append_nil_l s : EmptyString +:+ s = s.
Proof. reflexivity. Qed.

Lemma append_cons c s1 s2 : String c s1 +:+ s2 = String c (s1 +:+ s2).
Proof. reflexivity. Qed.

Lemma Split_first_equals k rest :
  has_byte "=" k = false →
  Strings.Split (k +:+ "=" +:+ rest) "=" = k :: Strings.Split rest "=".
Proof.
  induction k as [|c k IH]; cbn [has_byte].
  - intros _. rewrite append_nil_l, append_cons, append_nil_l.
    by rewrite Split_equals_cons.
  - intros [Hc Hk]%orb_false_iff.
    rewrite append_cons, Split_equals_cons, Hc, (IH Hk). done.
Qed.

Lemma first_equals s :
  has_byte "=" s = false
  ∨ ∃ k rest, s = k +:+ "=" +:+ rest ∧ has_byte "=" k = false.
Proof.
  induction s as [|c s IH]; [by left|]. cbn [has_byte].
  destruct (Ascii.eqb_spec "=" c) as [<-|Hne]; cbn [orb].
  - right. by exists EmptyString, s.
  - destruct IH as [Hs|(k & rest & -> & Hk)]; [by left|].
    right. exists (String c k), rest. split; [done|]. cbn [has_byte].
    apply orb_false_iff. split; [|done]. by apply Ascii.eqb_neq.
Qed.

(** X18: the tags that [Stats] accepts are those of the form [k=v], with a
    key [k] and a value [v] that are not empty and hold no "=": the key of
    such a tag is [k] and its value is [v].  A tag without "=", with a second
    "=", or with an empty key or value is refused. *)
Theorem well_formed_tag_shape (t : string) :
  well_formed_tag t ↔
  ∃ k v, t = k +:+ "=" +:+ v
         ∧ k ≠ EmptyString ∧ v ≠ EmptyString
         ∧ has_byte "=" k = false ∧ has_byte "=" v = false
         ∧ tag_key t = k ∧ tag_value t = v.
Proof.
  unfold well_formed_tag, tag_key, tag_value. split.
  - intros (k & v & Hsplit & Hk & Hv).
    destruct (first_equals t) as [Hno|(k' & rest & -> & Hk')].
    { rewrite (Split_without_equals t Hno) in Hsplit. done. }
    rewrite (Split_first_equals k' rest Hk') in Hsplit. injection Hsplit as -> Hrest.
    destruct (first_equals rest) as [Hno|(k2 & rest2 & -> & Hk2)].
    + rewrite (Split_without_equals rest Hno) in Hrest. injection Hrest as ->.
      exists k, v. rewrite (Split_first_equals k v Hk'), (Split_without_equals v Hno).
      done.
    + rewrite (Split_first_equals k2 rest2 Hk2) in Hrest. injection Hrest as _ Hnil.
      by apply Split_not_nil in Hnil.
  - intros (k & v & -> & Hk & Hv & Hnk & Hnv & _).
    exists k, v. by rewrite (Split_first_equals k v Hnk), (Split_without_equals v Hnv).
Qed.

Lemma well_formed_tag_shape_witness :
  ∃ k v, "env=prod" = k +:+ "=" +:+ v
         ∧ k ≠ EmptyString ∧ v ≠ EmptyString
         ∧ has_byte "=" k = false ∧ has_byte "=" v = false
         ∧ tag_key "env=prod" = k ∧ tag_value "env=prod" = v.
Proof.
  apply (well_formed_tag_shape "env=prod").
  exists "env", "prod". split_and!; [reflexivity|discriminate|discriminate].
Defined.

Section ParseMore.

Lemma parse_tags_inr l tags m :
  parse_tags l tags = inr m →
  (∀ t, t ∈ l → well_formed_tag t)
  ∧ m = foldl (fun tags t => <[tag_key t := tag_value t]> tags) tags l.
Proof.
  revert tags. induction l as [|t l IH]; intros tags Hp.
  - simpl in Hp. injection Hp as <-. split; [|done]. intros ? H. by apply elem_of_nil in H.
  - simpl in Hp.
    destruct (length (Strings.Split t "=") =? 2)%nat eqn:Hlen; [|done]. simpl in Hp.
    destruct (String.eqb (nth 0 (Strings.Split t "=") EmptyString) EmptyString) eqn:Hk;
      [done|].
    destruct (String.eqb (nth 1 (Strings.Split t "=") EmptyString) EmptyString) eqn:Hv;
      [done|].
    simpl in Hp. destruct (IH _ Hp) as [Hall ->]. split; [|done].
    intros t' [->|Hin]%elem_of_cons; [|by apply Hall].
    by apply well_formed_tag_test.
Qed.

Lemma foldl_tags_lookup l (tags : gmap string string) k v :
  foldl (fun tags t => <[tag_key t := tag_value t]> tags) tags l !! k = Some v ↔
  (∃ l1 t l2, l = (l1 ++ t :: l2)%list ∧ tag_key t = k ∧ tag_value t = v
              ∧ ∀ t', t' ∈ l2 → tag_key t' ≠ k)
  ∨ (tags !! k = Some v ∧ ∀ t', t' ∈ l → tag_key t' ≠ k).
Proof.
  revert tags. induction l as [|t l IH]; intros tags; simpl.
  - split.
    + intros H. right. split; [done|]. intros ? Hin. by apply elem_of_nil in Hin.
    + intros [(l1 & t & l2 & Hl & _)|[H _]]; [|done]. by destruct l1.
  - rewrite IH. split.
    + intros [(l1 & t' & l2 & -> & Hk & Hv & Hlater)|[Hl Hnone]].
      * left. exists (t :: l1), t', l2. done.
      * destruct (decide (tag_key t = k)) as [Heq|Hne].
        -- rewrite Heq, lookup_insert_eq in Hl. injection Hl as Hv.
           left. exists [], t, l. done.
        -- rewrite lookup_insert_ne in Hl by done. right. split; [done|].
           intros t' [->|Hin]%elem_of_cons; [done|by apply Hnone].
    + intros [(l1 & t' & l2 & Hl & Hk & Hv & Hlater)|[Hl Hnone]].
      * destruct l1 as [|t1 l1]; simpl in Hl; injection Hl as <- ->.
        -- right. split; [|done]. rewrite Hk, Hv. apply lookup_insert_eq.
        -- left. by exists l1, t', l2.
      * right. split.
        -- rewrite lookup_insert_ne; [done|]. apply Hnone. by left.
        -- intros t' Hin. apply Hnone. by right.
Qed.

(** X19: when [Stats] accepts its tags, the map it queries with binds a key
    to the value of the last tag that has this key, and binds no other
    key. *)
Theorem parse_tags_last_wins (l : list string) (m : gmap string string) (k v : string) :
  parse_tags l ∅ = inr m →
  (m !! k = Some v ↔
   ∃ l1 t l2, l = (l1 ++ t :: l2)%list ∧ tag_key t = k ∧ tag_value t = v
              ∧ ∀ t', t' ∈ l2 → tag_key t' ≠ k).
Proof.
  intros [_ ->]%parse_tags_inr. rewrite foldl_tags_lookup. split.
  - intros [H|[H _]]; [done|]. by rewrite lookup_empty in H.
  - intros H. by left.
Qed.

End ParseMore.

Lemma parse_tags_last_wins_witness :
  match parse_tags ["env=dev"; "team=core"; "env=prod"] ∅ with
  | inr m => m !! "env" = Some "prod"
  | inl _ => False
  end.
Proof.
  destruct (parse_tags ["env=dev"; "team=core"; "env=prod"] ∅) as [e|m] eqn:Hm.
  - vm_compute in Hm. discriminate.
  - apply (parse_tags_last_wins ["env=dev"; "team=core"; "env=prod"] m "env" "prod" Hm).
    exists ["env=dev"; "team=core"], "env=prod", []. split_and!; try reflexivity.
    intros t' H. exfalso. exact (proj1 (elem_of_nil t') H).
Defined.

End StatsMore.

(** ** The gauge, continued *)
Module MetricsMore.
Import Api GoFacts MetricsFacts.
Local Open Scope list_scope.

Section RefreshMore.
Variables float64 DB : Type.
Variable task_LoadStateCountResolverGroup : DB → stateCounts float64 * option error.

Lemma update_states_warnings group template l (x : exporter float64) :
  warnings (update_states float64 group template l x) = warnings x.
Proof.
  revert x. induction l as [|[state count] l IH]; intros x; [done|]. simpl. by rewrite IH.
Qed.

Lemma update_templates_warnings R group l (x : exporter float64) :
  warnings (update_templates float64 R group l x) = warnings x.
Proof.
  revert x. induction l as [|[template ts] l IH]; intros x; [done|]. simpl.
  by rewrite IH, update_states_warnings.
Qed.

Lemma update_groups_warnings R l (x : exporter float64) :
  warnings (update_groups float64 R l x) = warnings x.
Proof.
  revert x. induction l as [|[group gs] l IH]; intros x; [done|]. simpl.
  by rewrite IH, update_templates_warnings.
Qed.

Lemma update_states_keeps group template l (x : exporter float64) lvs :
  is_Some (gauges x !! lvs) →
  is_Some (gauges (update_states float64 group template l x) !! lvs).
Proof.
  revert x. induction l as [|[state count] l IH]; intros x Hx; [done|]. simpl.
  apply IH. simpl. destruct (decide ([state; template; group] = lvs)) as [->|Hne].
  - rewrite lookup_insert_eq. by eexists.
  - by rewrite lookup_insert_ne.
Qed.

Lemma update_templates_keeps R group l (x : exporter float64) lvs :
  is_Some (gauges x !! lvs) →
  is_Some (gauges (update_templates float64 R group l x) !! lvs).
Proof.
  revert x. induction l as [|[template ts] l IH]; intros x Hx; [done|]. simpl.
  by apply IH, update_states_keeps.
Qed.

Lemma update_groups_keeps R l (x : exporter float64) lvs :
  is_Some (gauges x !! lvs) →
  is_Some (gauges (update_groups float64 R l x) !! lvs).
Proof.
  revert x. induction l as [|[group gs] l IH]; intros x Hx; [done|]. simpl.
  by apply IH, update_templates_keeps.
Qed.

(** The query result holds a count for the label values [lvs]. *)
Definition counted (stats : stateCounts float64) (lvs : list string) : Prop :=
  ∃ group groupStats template templateStats state count,
    stats !! group = Some groupStats ∧ groupStats !! template = Some templateStats
    ∧ templateStats !! state = Some count ∧ lvs = [state; template; group].

(** X20: [updateMetrics] never removes a gauge and only sets those for
    which the query returns a count: the gauge of a state, template and group
    that the query no longer counts keeps its last value.  Its only other
    effect is to log the error of the query, if any. *)
Theorem updateMetrics_never_resets (R : MapRange) (dbp : DB) (x : exporter float64)
    (stats : stateCounts float64) (err : option error) (lvs : list string) :
  task_LoadStateCountResolverGroup dbp = (stats, err) →
  let x' := updateMetrics float64 DB task_LoadStateCountResolverGroup R dbp x in
  (¬ counted stats lvs → gauges x' !! lvs = gauges x !! lvs)
  ∧ (is_Some (gauges x !! lvs) → is_Some (gauges x' !! lvs))
  ∧ warnings x' = warnings x ++ match err with Some e => [e] | None => [] end.
Proof.
  intros Hload x'. split_and!.
  - intros Hnc. apply (updateMetrics_keeps float64 DB _ R dbp x stats err lvs Hload).
    intros group gs template ts state count Hg Ht Hs Heq. apply Hnc.
    by exists group, gs, template, ts, state, count.
  - intros Hx. subst x'. unfold updateMetrics. rewrite Hload.
    apply update_groups_keeps. by destruct err.
  - subst x'. unfold updateMetrics. rewrite Hload, update_groups_warnings.
    destruct err; simpl; [done|]. by rewrite app_nil_r.
Qed.

(** X21: when the database provider cannot be obtained, [collectMetrics]
    logs the error and starts neither ticker nor goroutine: the gauge is
    never refreshed, whatever happens afterwards. *)
Theorem collectMetrics_without_provider (R : MapRange) (err : error)
    (x : exporter float64) (es : list (event DB)) :
  collector_run float64 DB task_LoadStateCountResolverGroup R
    (collectMetrics float64 DB task_LoadStateCountResolverGroup R (inl err) x) es
  = {| ticker := None; looping := false;
       exported := {| gauges := gauges x; warnings := warnings x ++ [err] |} |}.
Proof. by rewrite collector_run_stopped. Qed.

End RefreshMore.

Lemma updateMetrics_never_resets_witness :
  is_Some (gauges (updateMetrics nat nat sample_counts canonicalRange 3
                     {| gauges := {[ ["TODO"; "hello-world"; "ops"] := 7 ]};
                        warnings := [] |})
             !! ["TODO"; "hello-world"; "ops"]).
Proof.
  apply (updateMetrics_never_resets nat nat sample_counts canonicalRange 3
           {| gauges := {[ ["TODO"; "hello-world"; "ops"] := 7 ]}; warnings := [] |}
           (sample_counts 3).1 None ["TODO"; "hello-world"; "ops"] eq_refl).
  exists 7. vm_compute. reflexivity.
Defined.

(** The gauge that the query does not count keeps its value. *)
Example stale_gauge_kept :
  gauges (updateMetrics nat nat sample_counts canonicalRange 3
            {| gauges := {[ ["TODO"; "hello-world"; "ops"] := 7 ]}; warnings := [] |})
    !! ["TODO"; "hello-world"; "ops"] = Some 7.
Proof. vm_compute. reflexivity. Qed.

End MetricsMore.

(** ** Gates, plugin routes and key rotation *)
Module ServerMore.
Import Auth AuthFacts Api ApiServer RouteFacts.
Local Open Scope list_scope.

Section GatesMore.
Variable W : Type.

(** X22: [maintenanceMode] answers 405 in maintenance mode but does not
    abort the request: the handler that follows it in the chain is still run,
    on the context that carries the 405 answer.  Out of maintenance mode it
    passes the request on unchanged. *)
Theorem maintenanceMode_does_not_abort (n : Z) (h : HandlerFunc W)
    (rest : list (HandlerFunc W)) (c : GinContext W) :
  (index c + 1 < n)%Z →
  chain_loop W n (maintenanceMode W true :: h :: rest) c
  = chain_loop W n rest
      (set_index W
         (index (h (fun c' => chain_loop W n rest (set_index W (index c' + 1) c'))
                   (set_index W (index c + 1)
                      (JSON W http_StatusMethodNotAllowed
                         [("error", "Maintenance mode activated")] c))) + 1)
         (h (fun c' => chain_loop W n rest (set_index W (index c' + 1) c'))
            (set_index W (index c + 1)
               (JSON W http_StatusMethodNotAllowed
                  [("error", "Maintenance mode activated")] c))))
  ∧ maintenanceMode W false
      (fun c' => chain_loop W n (h :: rest) (set_index W (index c' + 1) c')) c
    = chain_loop W n (h :: rest) (set_index W (index c + 1) c).
Proof.
  intros Hlt. split; [|reflexivity].
  rewrite chain_loop_cons by lia. unfold maintenanceMode at 1 2.
  rewrite chain_loop_cons by (simpl; lia). reflexivity.
Qed.

(** X23: the flag [user_is_admin] of [rootHandler] and the gate
    [requireAdmin] agree: the flag is set exactly for the admins, for whom
    [requireAdmin] runs the rest of the chain on the unchanged context, and
    it is unset exactly for the callers that [requireAdmin] aborts with 401.
    [rootHandler] never fails and reports the identity and groups of the
    caller. *)
Theorem admin_flag_agrees_with_gate (appName version commit : string) (a : admins)
    (next : GinContext W → GinContext W) (c : GinContext W) :
  ∃ out, rootHandler appName version commit a (request_ctx c) = (Some out, None)
    ∧ Username out = GetIdentity (request_ctx c)
    ∧ UserGroups out = GetGroups (request_ctx c)
    ∧ (UserIsAdmin out = true ↔ is_admin a (request_ctx c))
    ∧ (UserIsAdmin out = true → requireAdmin W a next c = next c)
    ∧ (UserIsAdmin out = false →
       requireAdmin W a next c = AbortWithStatus W http_StatusUnauthorized c).
Proof.
  unfold rootHandler, requireAdmin. eexists. split; [reflexivity|]. simpl.
  pose proof (IsAdmin_None a (request_ctx c)) as Ha.
  destruct (IsAdmin a (request_ctx c)); split_and!; try done.
  - split; [done|]. intros H. by apply Ha in H.
  - split; [intros _|done]. by apply Ha.
Qed.

End GatesMore.

Section PluginRoutesMore.
Variables W OperationOption : Type.

Lemma check_routes_None (routes : list (PluginRoute W OperationOption)) :
  check_routes W OperationOption routes = None ↔
  ∀ route, route ∈ routes → Handlers route ≠ [].
Proof.
  induction routes as [|route routes IH]; simpl.
  - split; [|done]. intros _ ? H. by apply elem_of_nil in H.
  - destruct (Handlers route) as [|h hs] eqn:Hh; simpl.
    + split; [done|]. intros H. exfalso. apply (H route); [by left|done].
    + rewrite IH. split.
      * intros Hall route' [->|Hin]%elem_of_cons; [by rewrite Hh|by apply Hall].
      * intros Hall route' Hin. apply Hall. by right.
Qed.

(** X24: [RegisterPluginRoutes] accepts a group exactly when each of its
    routes has a handler, and then appends it to the registered groups; it
    refuses any other group with a not-implemented error and registers
    nothing.  The chain that [build] gives a route of an accepted group is
    never empty and ends with the handlers of the route. *)
Theorem RegisterPluginRoutes_checks_handlers
    (pluginRoutes : list (PluginRouterGroup W OperationOption))
    (group : PluginRouterGroup W OperationOption) :
  let result := RegisterPluginRoutes W OperationOption pluginRoutes group in
  (result.2 = None ↔ ∀ route, route ∈ Routes group → Handlers route ≠ [])
  ∧ (result.2 = None → result.1 = pluginRoutes ++ [group])
  ∧ (∀ err, result.2 = Some err → result.1 = pluginRoutes ∧ kind_of err = KNotImplemented)
  ∧ (result.2 = None → ∀ s FMaintenanceMode route, route ∈ Routes group →
       plugin_routeHandlers W OperationOption s FMaintenanceMode route ≠ []
       ∧ ∃ gates, plugin_routeHandlers W OperationOption s FMaintenanceMode route
                  = gates ++ Handlers route).
Proof.
  intros result. subst result. unfold RegisterPluginRoutes.
  pose proof (check_routes_None (Routes group)) as Hc.
  destruct (check_routes W OperationOption (Routes group)) as [err|] eqn:Hcheck; simpl.
  - split; [|split; [|split]].
    + split; [done|]. intros Hall. apply Hc in Hall. done.
    + done.
    + intros err' [= <-]. split; [done|].
      clear Hc. induction (Routes group) as [|route routes IH]; [done|].
      simpl in Hcheck. destruct (length (Handlers route) =? 0)%nat.
      * by injection Hcheck as <-.
      * by apply IH.
    + done.
  - split; [|split; [|split]].
    + split; [intros _; by apply Hc|done].
    + done.
    + done.
    + intros _ s FM route Hin.
      assert (Handlers route ≠ []) as Hne by (by apply Hc).
      unfold plugin_routeHandlers. split.
      * destruct (Maintenance route), (Secured route), (Handlers route); done.
      * eexists. reflexivity.
Qed.

End PluginRoutesMore.

Section KeyRotateMore.
Variables W DB : Type.
Variable db_CallKeyRotations : DB → W → W * option error.
Variable task_RotateTasks : DB → W → W * option error.
Variable resolution_RotateResolutions : DB → W → W * option error.


End KeyRotateMore.

(** In maintenance mode the handler of a route still runs: here it empties
    the database. *)
Example handler_runs_in_maintenance :
  world (serve (list string) [maintenanceMode (list string) true; sample_delete]
           (sample_request "root")) = [].
Proof. reflexivity. Qed.

Lemma maintenanceMode_does_not_abort_witness :
  world (chain_loop (list string) 2 [maintenanceMode (list string) true; sample_delete]
           (sample_request "root")) = [].
Proof.
  destruct (maintenanceMode_does_not_abort (list string) 2 sample_delete []
              (sample_request "root")) as [H _].
  - simpl. lia.
  - rewrite H. reflexivity.
Defined.

Lemma admin_flag_agrees_with_gate_witness :
  requireAdmin (list string) sample_admins (fun c => c) (sample_request "mallory")
  = AbortWithStatus (list string) http_StatusUnauthorized (sample_request "mallory").
Proof.
  destruct (admin_flag_agrees_with_gate (list string) "utask" "1.0" "abc" sample_admins
              (fun c => c) (sample_request "mallory"))
    as (out & Hout & _ & _ & _ & _ & Hdenied).
  apply Hdenied. injection Hout as <-. reflexivity.
Defined.

Lemma RegisterPluginRoutes_checks_handlers_witness :
  (RegisterPluginRoutes (list string) unit []
     {| GroupPath := "/plugin"; GroupName := "plugin"; GroupDescription := "a plugin";
        Routes := [ {| Secured := true; Maintenance := false; Path := "/ping";
                       Method := "GET"; Infos := []; Handlers := [pass_on] |} ] |}).1
  = [ {| GroupPath := "/plugin"; GroupName := "plugin"; GroupDescription := "a plugin";
         Routes := [ {| Secured := true; Maintenance := false; Path := "/ping";
                        Method := "GET"; Infos := []; Handlers := [pass_on] |} ] |} ].
Proof.
  apply (RegisterPluginRoutes_checks_handlers (list string) unit []
     {| GroupPath := "/plugin"; GroupName := "plugin"; GroupDescription := "a plugin";
        Routes := [ {| Secured := true; Maintenance := false; Path := "/ping";
                       Method := "GET"; Infos := []; Handlers := [pass_on] |} ] |}).
  reflexivity.
Defined.


End ServerMore.

(** ** The plugin [apiovh] *)
Module PluginApiOvhFacts.
Import PluginApiOvh.
Local Open Scope list_scope.

Section ValidConfigFacts.
Variable Client : Type.
Variable configstore_GetItemValue : string → error + string.
Variable json_Unmarshal_ovhConfig : string → error + ovhConfig.
Variable ovh_NewClient : string → string → string → string → error + Client.
Variable values_Apply : string → error + string.

Local Abbreviation validConfig :=
  (validConfig Client configstore_GetItemValue json_Unmarshal_ovhConfig ovh_NewClient
     values_Apply).

(** The stored credentials named [credentials] give a client. *)
Definition stored_client (credentials : string) : Prop :=
  ∃ ovhCfgStr ovhcfg cli,
    configstore_GetItemValue credentials = inr ovhCfgStr
    ∧ json_Unmarshal_ovhConfig ovhCfgStr = inr ovhcfg
    ∧ ovh_NewClient (Endpoint ovhcfg) (AppKey ovhcfg) (AppSecret ovhcfg)
        (ConsumerKey ovhcfg) = inr cli.

Lemma known_method_true m :
  known_method m = true ↔ m = "GET" ∨ m = "POST" ∨ m = "PUT" ∨ m = "DELETE".
Proof. unfold known_method. rewrite !orb_true_iff, !String.eqb_eq. tauto. Qed.

(** X26: [validConfig] accepts a configuration exactly when its method is
    GET, POST, PUT or DELETE, in capitals, and its credentials either hold
    the template opening "{{" and are accepted by the template engine, or
    hold none and name stored credentials that decode and give a client.  A
    method outside the four is refused whatever the credentials; credentials
    written as a template are never looked up in the configuration store. *)
Theorem validConfig_accepts (cfg : APIOVHConfig) :
  (validConfig cfg = None ↔
     (Method cfg = "GET" ∨ Method cfg = "POST" ∨ Method cfg = "PUT"
      ∨ Method cfg = "DELETE")
     ∧ ((Contains (Credentials cfg) "{{" = true
         ∧ ∃ rendered, values_Apply (Credentials cfg) = inr rendered)
        ∨ (Contains (Credentials cfg) "{{" = false ∧ stored_client (Credentials cfg))))
  ∧ (known_method (Method cfg) = false →
     validConfig cfg
     = Some (fmt_Errorf "unknown method for gw runner: %q" [AStr (Method cfg)])).
Proof.
  unfold PluginApiOvh.validConfig, stored_client.
  pose proof (known_method_true (Method cfg)) as Hm. split.
  - destruct (known_method (Method cfg)); simpl.
    2:{ split; [done|]. intros [H _]. apply Hm in H. done. }
    destruct (Contains (Credentials cfg) "{{"); simpl.
    + destruct (values_Apply (Credentials cfg)) as [err|rendered].
      * split; [done|]. intros [_ [[_ [? ?]]|[? _]]]; done.
      * split; [intros _|done]. split; [by apply Hm|]. left. split; [done|by eexists].
    + destruct (configstore_GetItemValue (Credentials cfg)) as [err|str].
      { split; [done|]. intros [_ [[? _]|[_ (? & ? & ? & ? & _)]]]; done. }
      destruct (json_Unmarshal_ovhConfig str) as [err|ovhcfg] eqn:Hj.
      { split; [done|]. intros [_ [[? _]|[_ (? & ? & ? & [= <-] & Hj' & _)]]];
          [done|congruence]. }
      destruct (ovh_NewClient _ _ _ _) as [err|cli] eqn:Hc.
      { split; [done|]. intros [_ [[? _]|[_ (? & ? & ? & [= <-] & Hj' & Hc')]]]; [done|].
        rewrite Hj in Hj'. injection Hj' as <-. congruence. }
      split; [intros _|done]. split; [by apply Hm|]. right. split; [done|].
      by exists str, ovhcfg, cli.
  - by intros ->.
Qed.

End ValidConfigFacts.

Section ResourcesFacts.
Variable configstore_GetItemValue : string → error + string.
Variable json_Unmarshal_ovhConfig : string → error + ovhConfig.
Variable ovh_Endpoints : gmap string string.
Variable url_Parse_Host : string → option string.

Local Abbreviation resourcesapiovh :=
  (resourcesapiovh configstore_GetItemValue json_Unmarshal_ovhConfig ovh_Endpoints
     url_Parse_Host).

(** X27: [resourcesapiovh] never fails and always asks for the resource
    [socket], first.  It adds one resource [url:] with the host of the
    endpoint only when the stored credentials are found and decode, the
    endpoint (or [ovh-eu] when the credentials name none) is a known one, and
    its URL parses with a host that is not empty; it adds nothing else. *)
Theorem resourcesapiovh_shape (cfg : APIOVHConfig) :
  resourcesapiovh cfg = ["socket"]
  ∨ ∃ ovhCfgStr ovhcfg host uri_Host,
      configstore_GetItemValue (Credentials cfg) = inr ovhCfgStr
      ∧ json_Unmarshal_ovhConfig ovhCfgStr = inr ovhcfg
      ∧ ovh_Endpoints !! (if String.eqb (Endpoint ovhcfg) EmptyString then "ovh-eu"
                          else Endpoint ovhcfg) = Some host
      ∧ url_Parse_Host host = Some uri_Host
      ∧ uri_Host ≠ EmptyString
      ∧ resourcesapiovh cfg = ["socket"; "url:" +:+ uri_Host].
Proof.
  unfold PluginApiOvh.resourcesapiovh.
  destruct (configstore_GetItemValue (Credentials cfg)) as [err|str] eqn:Hg; [by left|].
  destruct (json_Unmarshal_ovhConfig str) as [err|ovhcfg] eqn:Hj; [by left|].
  assert ((if negb (String.eqb (Endpoint ovhcfg) EmptyString) then Endpoint ovhcfg
           else "ovh-eu")
          = (if String.eqb (Endpoint ovhcfg) EmptyString then "ovh-eu"
             else Endpoint ovhcfg)) as -> by (by destruct (String.eqb _ _)).
  destruct (ovh_Endpoints !! _) as [host|] eqn:He; [|by left].
  destruct (url_Parse_Host host) as [uri_Host|] eqn:Hu; [|by left].
  destruct (String.eqb_spec uri_Host EmptyString) as [->|Hne]; [by left|].
  right. exists str, ovhcfg, host, uri_Host. simpl. split_and!; done.
Qed.

End ResourcesFacts.

Section ExecFacts.
Variable Client : Type.
Variable configstore_GetItemValue : string → error + string.
Variable json_Unmarshal_ovhConfig : string → error + ovhConfig.
Variable ovh_NewClient : string → string → string → string → error + Client.
Variables Net Request Response Value : Type.
Variable utils_JSONnumberUnmarshal : string → error + Value.
Variable cli_NewRequest : Client → string → string → option Value → bool → error + Request.
Variable cli_Do : Client → Request → Net → Net * (error + Response).
Variable httputil_UnmarshalResponse : Response → option Value * option Value * option error.

Local Abbreviation exec :=
  (exec Client configstore_GetItemValue json_Unmarshal_ovhConfig ovh_NewClient
     Net Request Response Value utils_JSONnumberUnmarshal cli_NewRequest cli_Do
     httputil_UnmarshalResponse).

(** X28: [exec] sends at most one request.  Either it fails before
    sending, returning an error and neither output nor metadata and leaving
    the remote API untouched; or the stored credentials gave a client, the
    body (if the configuration has one) was decoded, and the request sent is
    the authenticated request that the client builds from the method, the path
    and the body of the configuration. *)
Theorem exec_sends_one_request (stepName : string) (cfg : APIOVHConfig) (net : Net) :
  (∃ err, exec stepName cfg net = (net, (None, None, Some err)))
  ∨ ∃ ovhCfgStr ovhcfg cli body req,
      configstore_GetItemValue (Credentials cfg) = inr ovhCfgStr
      ∧ json_Unmarshal_ovhConfig ovhCfgStr = inr ovhcfg
      ∧ ovh_NewClient (Endpoint ovhcfg) (AppKey ovhcfg) (AppSecret ovhcfg)
          (ConsumerKey ovhcfg) = inr cli
      ∧ ((Body cfg = EmptyString ∧ body = None)
         ∨ (Body cfg ≠ EmptyString
            ∧ ∃ v, utils_JSONnumberUnmarshal (Body cfg) = inr v ∧ body = Some v))
      ∧ cli_NewRequest cli (Method cfg) (Path cfg) body true = inr req
      ∧ exec stepName cfg net =
        match cli_Do cli req net with
        | (net', inl err) =>
            (net', (None, None, Some (fmt_Errorf_err "can't execute request: %s" err)))
        | (net', inr resp) => (net', httputil_UnmarshalResponse resp)
        end.
Proof.
  unfold PluginApiOvh.exec.
  destruct (configstore_GetItemValue (Credentials cfg)) as [err|str] eqn:Hg;
    [left; by eexists|].
  destruct (json_Unmarshal_ovhConfig str) as [err|ovhcfg] eqn:Hj; [left; by eexists|].
  destruct (ovh_NewClient _ _ _ _) as [err|cli] eqn:Hc; [left; by eexists|].
  destruct (String.eqb_spec (Body cfg) EmptyString) as [Hb|Hb]; simpl.
  - destruct (cli_NewRequest cli (Method cfg) (Path cfg) None true) as [err|req] eqn:Hr;
      [left; by eexists|].
    right. exists str, ovhcfg, cli, None, req. split_and!; try done. by left.
  - destruct (utils_JSONnumberUnmarshal (Body cfg)) as [err|v] eqn:Hv;
      [left; by eexists|].
    destruct (cli_NewRequest cli (Method cfg) (Path cfg) (Some v) true) as [err|req] eqn:Hr;
      [left; by eexists|].
    right. exists str, ovhcfg, cli, (Some v), req. split_and!; try done.
    right. split; [done|]. by exists v.
Qed.

End ExecFacts.

Lemma validConfig_accepts_witness :
  validConfig unit (fun _ => inl (errors_New "no such item")) (fun _ => inl (errors_New "bad"))
    (fun _ _ _ _ => inr ()) (fun s => inr s)
    {| Credentials := "{{.input.credentials}}"; Method := "get"; Path := "/me";
       Body := EmptyString |}
  = Some (fmt_Errorf "unknown method for gw runner: %q" [AStr "get"]).
Proof.
  apply (validConfig_accepts unit (fun _ => inl (errors_New "no such item"))
           (fun _ => inl (errors_New "bad")) (fun _ _ _ _ => inr ()) (fun s => inr s)
           {| Credentials := "{{.input.credentials}}"; Method := "get"; Path := "/me";
              Body := EmptyString |}).
  reflexivity.
Defined.

(** Templated credentials pass without the configuration store. *)
Example validConfig_template :
  validConfig unit (fun _ => inl (errors_New "no such item")) (fun _ => inl (errors_New "bad"))
    (fun _ _ _ _ => inr ()) (fun s => inr s)
    {| Credentials := "{{.input.credentials}}"; Method := "GET"; Path := "/me";
       Body := EmptyString |}
  = None.
Proof. reflexivity. Qed.

(** The default endpoint is used when the credentials name none. *)
Example resourcesapiovh_default_endpoint :
  resourcesapiovh (fun _ => inr "{}")
    (fun _ => inr {| Endpoint := EmptyString; AppKey := "k"; AppSecret := "s";
                     ConsumerKey := "c" |})
    {[ "ovh-eu" := "https://eu.api.ovh.com/1.0" ]}
    (fun _ => Some "eu.api.ovh.com")
    {| Credentials := "ovh"; Method := "GET"; Path := "/me"; Body := EmptyString |}
  = ["socket"; "url:eu.api.ovh.com"].
Proof. vm_compute. reflexivity. Qed.

End PluginApiOvhFacts.
